(** * Session: a DynamoDB-backed session handle

    A shallow embedding of the [Session] class of
    [@gemeentenijmegen/session] (the version with [sessionHash], a
    configurable [ttl] and [setValue]), together with the library
    functions it calls:

    - [crypto.createHash('sha256') ... digest('base64')]  (module [SHA256],
      module [Base64]);
    - [encodeURIComponent] / [decodeURIComponent] and the loose comparison
      of a string with [false]  (module [JS]);
    - the arithmetic of JavaScript numbers, IEEE 754 binary64 with
      rounding to nearest, ties to even  (module [Number]);
    - [cookie.parse] / [cookie.serialize]  (module [Cookie]);
    - property reads and assignments on plain objects, prototype chain
      included;
    - the DynamoDB client, the clock and [crypto.randomUUID], which are the
      environment of a handle and are parameters of the development.

    JavaScript strings are represented by [string], holding the bytes of
    their WTF-8 form: UTF-8, with an unpaired surrogate written as the
    three bytes its code point would take ([ED A0..BF xx]).

    Objects are represented by their own properties and their prototype.
    The one alias the class makes itself, [data] in [setValue], is written
    through to the handle's [session]; the client is taken neither to keep
    nor to change the objects it is handed or hands out (the SDK serialises
    a command and builds a new output for each call). *)

From stdpp Require Import gmap strings list fin_maps.
From Stdlib Require Import ZArith QArith Qround Qabs Qpower Qreduction Lqa Ascii DecimalString.

#[local] Open Scope string_scope.
#[local] Open Scope list_scope.

(** ** Bytes of a string *)

Definition byte_of_ascii (c : ascii) : Z := Z.of_N (N_of_ascii c).
Definition ascii_of_byte (b : Z) : ascii := ascii_of_N (Z.to_N (b mod 256)).

(** The UTF-8 form of a string, as [hash.update] takes it: an unpaired
    surrogate becomes U+FFFD. *)
Fixpoint bytes_of_string (s : string) : list Z :=
  match s with
  | "" => []
  | String c0 r0 =>
      match r0 with
      | String c1 (String c2 r) =>
          if ((byte_of_ascii c0 =? 0xED) && (0xA0 <=? byte_of_ascii c1))%Z
          then 0xEF%Z :: 0xBF%Z :: 0xBD%Z :: bytes_of_string r
          else byte_of_ascii c0 :: bytes_of_string r0
      | _ => byte_of_ascii c0 :: bytes_of_string r0
      end
  end.

(** ** SHA-256 (FIPS 180-4) on byte lists, words as [Z] modulo 2^32 *)

Module SHA256.
#[local] Open Scope Z_scope.

Definition wrap32 (x : Z) : Z := x mod 2 ^ 32.
Definition add32 (x y : Z) : Z := wrap32 (x + y).
Definition not32 (x : Z) : Z := Z.lxor x 0xffffffff.
Definition rotr (n x : Z) : Z :=
  Z.lor (Z.shiftr x n) (wrap32 (Z.shiftl x (32 - n))).
Definition shr (n x : Z) : Z := Z.shiftr x n.

Definition Ch (x y z : Z) : Z := Z.lxor (Z.land x y) (Z.land (not32 x) z).
Definition Maj (x y z : Z) : Z :=
  Z.lxor (Z.lxor (Z.land x y) (Z.land x z)) (Z.land y z).
Definition Sigma0 (x : Z) : Z := Z.lxor (Z.lxor (rotr 2 x) (rotr 13 x)) (rotr 22 x).
Definition Sigma1 (x : Z) : Z := Z.lxor (Z.lxor (rotr 6 x) (rotr 11 x)) (rotr 25 x).
Definition sigma0 (x : Z) : Z := Z.lxor (Z.lxor (rotr 7 x) (rotr 18 x)) (shr 3 x).
Definition sigma1 (x : Z) : Z := Z.lxor (Z.lxor (rotr 17 x) (rotr 19 x)) (shr 10 x).

(** The constants, as the standard defines them: the first 32 bits of the
    fractional parts of the cube roots (for [K]) and of the square roots
    (for [H0]) of the first primes. *)
Definition is_prime (n : Z) : bool :=
  (2 <=? n) && forallb (fun d => negb (n mod Z.of_nat d =? 0)) (seq 2 (Z.to_nat n - 2)).

Definition primes (count : nat) : list Z :=
  firstn count (filter is_prime (map Z.of_nat (seq 2 310))).

(** The integer cube root, one bit at a time from the top. *)
Fixpoint cube_root (bits : nat) (n r : Z) : Z :=
  match bits with
  | O => r
  | S b =>
      let r' := r + 2 ^ Z.of_nat b in
      cube_root b n (if r' ^ 3 <=? n then r' else r)
  end.

Definition K : list Z :=
  Eval vm_compute in map (fun p => wrap32 (cube_root 40 (p * 2 ^ 96) 0)) (primes 64).

(** The eight working variables / chaining values. *)
Record regs : Type := Regs { ra : Z; rb : Z; rc : Z; rd : Z; re : Z; rf : Z; rg : Z; rh : Z }.

Definition H0 : regs :=
  Eval vm_compute in
    match map (fun p => wrap32 (Z.sqrt (p * 2 ^ 64))) (primes 8) with
    | [a; b; c; d; e; f; g; h] => Regs a b c d e f g h
    | _ => Regs 0 0 0 0 0 0 0 0
    end.

(** Big-endian bytes of a word and back. *)
Definition word_bytes (w : Z) : list Z :=
  [ Z.shiftr w 24 mod 256; Z.shiftr w 16 mod 256; Z.shiftr w 8 mod 256; w mod 256 ].

Fixpoint words_of_bytes (l : list Z) : list Z :=
  match l with
  | b0 :: b1 :: b2 :: b3 :: rest =>
      (((b0 * 256 + b1) * 256 + b2) * 256 + b3) :: words_of_bytes rest
  | _ => []
  end.

(** Padding: the byte 0x80, zeros up to 56 mod 64, the bit length on 8 bytes. *)
Definition pad (msg : list Z) : list Z :=
  let len := Z.of_nat (length msg) in
  let zeros := Z.to_nat ((55 - len) mod 64) in
  let bits := 8 * len in
  msg ++ [0x80] ++ repeat 0 zeros
      ++ word_bytes (Z.shiftr bits 32 mod 2 ^ 32) ++ word_bytes (bits mod 2 ^ 32).

(** One round: [w] is the window W[t..t+15] of the message schedule. *)
Definition round (st : regs * list Z) (k : Z) : regs * list Z :=
  let '(r, w) := st in
  let wt := nth 0 w 0 in
  let t1 := add32 (add32 (add32 (add32 (rh r) (Sigma1 (re r))) (Ch (re r) (rf r) (rg r))) k) wt in
  let t2 := add32 (Sigma0 (ra r)) (Maj (ra r) (rb r) (rc r)) in
  let w16 := add32 (add32 (add32 (sigma1 (nth 14 w 0)) (nth 9 w 0)) (sigma0 (nth 1 w 0))) wt in
  (Regs (add32 t1 t2) (ra r) (rb r) (rc r) (add32 (rd r) t1) (re r) (rf r) (rg r),
   tl w ++ [w16]).

Definition compress (h : regs) (block : list Z) : regs :=
  let r := fst (fold_left round K (h, block)) in
  Regs (add32 (ra h) (ra r)) (add32 (rb h) (rb r)) (add32 (rc h) (rc r))
       (add32 (rd h) (rd r)) (add32 (re h) (re r)) (add32 (rf h) (rf r))
       (add32 (rg h) (rg r)) (add32 (rh h) (rh r)).

(** Blocks of sixteen words; [fuel] bounds the number of blocks. *)
Fixpoint blocks (fuel : nat) (h : regs) (ws : list Z) : regs :=
  match fuel with
  | O => h
  | S fuel' =>
      match ws with
      | [] => h
      | _ => blocks fuel' (compress h (firstn 16 ws)) (skipn 16 ws)
      end
  end.

Definition digest (msg : list Z) : list Z :=
  let ws := words_of_bytes (pad msg) in
  let r := blocks (length ws) H0 ws in
  word_bytes (ra r) ++ word_bytes (rb r) ++ word_bytes (rc r) ++ word_bytes (rd r)
    ++ word_bytes (re r) ++ word_bytes (rf r) ++ word_bytes (rg r) ++ word_bytes (rh r).

End SHA256.

(** ** Base64 (RFC 4648, with padding) *)

Module Base64.
#[local] Open Scope Z_scope.

Definition alphabet : string :=
  "ABCDEFGHIJKLMNOPQRSTUVWXYZabcdefghijklmnopqrstuvwxyz0123456789+/".

Definition digit (n : Z) : ascii :=
  match String.get (Z.to_nat (n mod 64)) alphabet with
  | Some c => c
  | None => "A"%char
  end.

Fixpoint encode (l : list Z) : string :=
  match l with
  | [] => ""
  | [b0] =>
      String (digit (Z.shiftr b0 2))
        (String (digit (Z.shiftl (b0 mod 4) 4)) "==")
  | [b0; b1] =>
      String (digit (Z.shiftr b0 2))
        (String (digit (Z.shiftl (b0 mod 4) 4 + Z.shiftr b1 4))
           (String (digit (Z.shiftl (b1 mod 16) 2)) "="))
  | b0 :: b1 :: b2 :: rest =>
      String (digit (Z.shiftr b0 2))
        (String (digit (Z.shiftl (b0 mod 4) 4 + Z.shiftr b1 4))
           (String (digit (Z.shiftl (b1 mod 16) 2 + Z.shiftr b2 6))
              (String (digit (b2 mod 64)) (encode rest))))
  end.

End Base64.

(** [Session.hash]:
<<
    const hash = crypto.createHash('sha256');
    hash.update(hashString);
    return hash.digest('base64');
>>
 *)
Definition hash (hashString : string) : string :=
  Base64.encode (SHA256.digest (bytes_of_string hashString)).


(** ** Completions of JavaScript code *)

(** What a [throw] carries: an [Error] or a [TypeError] raised by the
    language or by [Session] itself, or whatever the promise returned by
    [dbClient.send] was rejected with. *)
Inductive JsError : Type :=
| Error (message : string)
| TypeError (message : string)
| URIError (message : string)
| ClientError (reason : string).

Inductive Completion (A : Type) : Type :=
| Normal (a : A)
| Throw (e : JsError).
Arguments Normal {A} a.
Arguments Throw {A} e.

(** ** The parts of the language the class relies on *)

Module JS.
#[local] Open Scope Z_scope.

Definition in_range (lo hi : Z) (c : ascii) : bool :=
  (lo <=? byte_of_ascii c) && (byte_of_ascii c <=? hi).

Definition is_digit (c : ascii) : bool := in_range 48 57 c.

Definition hex_val (c : ascii) : option Z :=
  let b := byte_of_ascii c in
  if in_range 48 57 c then Some (b - 48)
  else if in_range 65 70 c then Some (b - 55)
  else if in_range 97 102 c then Some (b - 87)
  else None.

Definition hex_digit (n : Z) : ascii :=
  match String.get (Z.to_nat (n mod 16)) "0123456789ABCDEF" with
  | Some c => c
  | None => "0"%char
  end.

(** *** White space: [String.prototype.trim] and [StrWhiteSpace]

    The code points U+0009..U+000D, U+0020, U+00A0, U+1680, U+2000..U+200A,
    U+2028, U+2029, U+202F, U+205F, U+3000 and U+FEFF, as UTF-8. *)

Definition ws1 (b : Z) : bool := ((9 <=? b) && (b <=? 13)) || (b =? 32).
Definition ws2 (b0 b1 : Z) : bool := (b0 =? 0xC2) && (b1 =? 0xA0).
Definition ws3 (b0 b1 b2 : Z) : bool :=
  ((b0 =? 0xE1) && (b1 =? 0x9A) && (b2 =? 0x80))
  || ((b0 =? 0xE2) && (b1 =? 0x80)
      && (((0x80 <=? b2) && (b2 <=? 0x8A)) || (b2 =? 0xA8) || (b2 =? 0xA9) || (b2 =? 0xAF)))
  || ((b0 =? 0xE2) && (b1 =? 0x81) && (b2 =? 0x9F))
  || ((b0 =? 0xE3) && (b1 =? 0x80) && (b2 =? 0x80))
  || ((b0 =? 0xEF) && (b1 =? 0xBB) && (b2 =? 0xBF)).

Fixpoint trimStart (s : string) : string :=
  match s with
  | "" => ""
  | String c0 r0 =>
      if ws1 (byte_of_ascii c0) then trimStart r0
      else match r0 with
           | "" => s
           | String c1 r1 =>
               if ws2 (byte_of_ascii c0) (byte_of_ascii c1) then trimStart r1
               else match r1 with
                    | "" => s
                    | String c2 r2 =>
                        if ws3 (byte_of_ascii c0) (byte_of_ascii c1) (byte_of_ascii c2)
                        then trimStart r2 else s
                    end
           end
  end.

(** The same on the reversed string: the bytes of a white space character
    are met last to first. *)
Fixpoint trimStart_rev (s : string) : string :=
  match s with
  | "" => ""
  | String c0 r0 =>
      if ws1 (byte_of_ascii c0) then trimStart_rev r0
      else match r0 with
           | "" => s
           | String c1 r1 =>
               if ws2 (byte_of_ascii c1) (byte_of_ascii c0) then trimStart_rev r1
               else match r1 with
                    | "" => s
                    | String c2 r2 =>
                        if ws3 (byte_of_ascii c2) (byte_of_ascii c1) (byte_of_ascii c0)
                        then trimStart_rev r2 else s
                    end
           end
  end.

Definition trimEnd (s : string) : string := String.rev (trimStart_rev (String.rev s)).
Definition trim (s : string) : string := trimEnd (trimStart s).

(** *** [encodeURIComponent]

    Every byte of the UTF-8 form is escaped, except the unreserved marks
    [A-Z a-z 0-9 - _ . ! ~ * ' ( )]; a string that holds an unpaired
    surrogate has no UTF-8 form, and a [URIError] is thrown. *)

Definition unreserved (c : ascii) : bool :=
  in_range 65 90 c || in_range 97 122 c || in_range 48 57 c
  || existsb (Ascii.eqb c) (String.list_ascii_of_string "-_.!~*'()").

Definition escape (c : ascii) : string :=
  String "%" (String (hex_digit (Z.shiftr (byte_of_ascii c) 4))
                (String (hex_digit (byte_of_ascii c mod 16)) "")).

Fixpoint percent_encode (s : string) : string :=
  match s with
  | "" => ""
  | String c r =>
      if unreserved c then String c (percent_encode r)
      else escape c +:+ percent_encode r
  end.

Fixpoint unpaired_surrogate (s : string) : bool :=
  match s with
  | "" => false
  | String c r =>
      ((byte_of_ascii c =? 0xED)
       && match r with
          | String c' _ => 0xA0 <=? byte_of_ascii c'
          | "" => false
          end)
      || unpaired_surrogate r
  end.

Definition encodeURIComponent (s : string) : Completion string :=
  if unpaired_surrogate s then Throw (URIError "URI malformed")
  else Normal (percent_encode s).

(** *** [decodeURIComponent]

    [None] stands for the [URIError] thrown on an escape that is not [%XX]
    with two hexadecimal digits, or on escaped octets that are not the
    UTF-8 form of a code point. *)

Inductive unit_ : Type :=
| Lit (c : ascii)   (* a character taken as it is *)
| Oct (b : Z).      (* an octet written %XX *)

Fixpoint escapes (s : string) : option (list unit_) :=
  match s with
  | "" => Some []
  | String c r =>
      if Ascii.eqb c "%" then
        match r with
        | String h1 (String h2 r') =>
            match hex_val h1, hex_val h2 with
            | Some a, Some b => cons (Oct (16 * a + b)) <$> escapes r'
            | _, _ => None
            end
        | _ => None
        end
      else cons (Lit c) <$> escapes r
  end.

(** For a leading octet: how many continuation octets follow and the range
    of the first of them (Unicode, table 3-7). *)
Definition lead (b : Z) : option (nat * Z * Z) :=
  if (0xC2 <=? b) && (b <=? 0xDF) then Some (1%nat, 0x80, 0xBF)
  else if b =? 0xE0 then Some (2%nat, 0xA0, 0xBF)
  else if b =? 0xED then Some (2%nat, 0x80, 0x9F)
  else if (0xE1 <=? b) && (b <=? 0xEF) then Some (2%nat, 0x80, 0xBF)
  else if b =? 0xF0 then Some (3%nat, 0x90, 0xBF)
  else if (0xF1 <=? b) && (b <=? 0xF3) then Some (3%nat, 0x80, 0xBF)
  else if b =? 0xF4 then Some (3%nat, 0x80, 0x8F)
  else None.

(** [need] continuation octets are still due, the next one within [lo..hi]. *)
Fixpoint utf8 (need : nat) (lo hi : Z) (us : list unit_) : option string :=
  match us with
  | [] => match need with O => Some "" | S _ => None end
  | Lit c :: r =>
      match need with
      | O => String c <$> utf8 O 0 0 r
      | S _ => None
      end
  | Oct b :: r =>
      match need with
      | O =>
          if b <? 0x80 then String (ascii_of_byte b) <$> utf8 O 0 0 r
          else match lead b with
               | Some (n, lo', hi') => String (ascii_of_byte b) <$> utf8 n lo' hi' r
               | None => None
               end
      | S n =>
          if (lo <=? b) && (b <=? hi)
          then String (ascii_of_byte b) <$> utf8 n 0x80 0xBF r
          else None
      end
  end.

Definition decodeURIComponent (s : string) : option string :=
  escapes s ≫= utf8 O 0 0.

(** *** [s == false] for a string [s]

    The comparison converts both sides to numbers: it holds when
    [Number(s)] is zero, that is when [s], white space apart, is empty or a
    numeric literal of value zero (IEEE rounding included: a decimal below
    or at 2^-1075 is zero). *)

Fixpoint span (p : ascii -> bool) (s : string) : string * string :=
  match s with
  | "" => ("", "")
  | String c r =>
      if p c then let '(a, b) := span p r in (String c a, b) else ("", s)
  end.

Fixpoint forallb_string (p : ascii -> bool) (s : string) : bool :=
  match s with
  | "" => true
  | String c r => p c && forallb_string p r
  end.

Fixpoint decimal_value (acc : Z) (s : string) : Z :=
  match s with
  | "" => acc
  | String c r => decimal_value (10 * acc + (byte_of_ascii c - 48)) r
  end.

Definition is_char (x : string) (c : ascii) : bool :=
  existsb (Ascii.eqb c) (String.list_ascii_of_string x).

(** [0x…], [0o…], [0b…]: at least one digit of the base, all of them [0]. *)
Definition radix_zero (digit_ok : ascii -> bool) (digits : string) : bool :=
  negb (String.eqb digits "") && forallb_string digit_ok digits
  && forallb_string (Ascii.eqb "0") digits.

(** The exponent part, if any: [Some e], or [None] when ill-formed. *)
Definition exponent (s : string) : option Z :=
  match s with
  | "" => Some 0
  | String e r =>
      if is_char "eE" e then
        let '(neg, ds) :=
          match r with
          | String sg r' =>
              if Ascii.eqb sg "-" then (true, r')
              else if Ascii.eqb sg "+" then (false, r') else (false, r)
          | "" => (false, r)
          end in
        if negb (String.eqb ds "") && forallb_string is_digit ds
        then Some (if neg then - decimal_value 0 ds else decimal_value 0 ds)
        else None
      else None
  end.

Definition decimal_zero (s : string) : bool :=
  let u := match s with
           | String sg r => if is_char "+-" sg then r else s
           | "" => s
           end in
  let '(int, r1) := span is_digit u in
  let '(frac, r2) := match r1 with
                     | String c r => if Ascii.eqb c "." then span is_digit r else ("", r1)
                     | "" => ("", r1)
                     end in
  if String.eqb int "" && String.eqb frac "" then false
  else match exponent r2 with
       | None => false
       | Some e =>
           let m := decimal_value 0 (int +:+ frac) in
           let e' := e - Z.of_nat (String.length frac) in
           (m =? 0) || ((e' <? 0) && (m * 2 ^ 1075 <=? 10 ^ (- e')))
       end.

Definition number_is_zero (s : string) : bool :=
  match trim s with
  | "" => true
  | String c0 (String c1 r) as t =>
      if Ascii.eqb c0 "0" && is_char "xX" c1
      then radix_zero (fun c => match hex_val c with Some _ => true | None => false end) r
      else if Ascii.eqb c0 "0" && is_char "oO" c1 then radix_zero (in_range 48 55) r
      else if Ascii.eqb c0 "0" && is_char "bB" c1 then radix_zero (in_range 48 49) r
      else decimal_zero t
  | t => decimal_zero t
  end.

(** *** What every plain object inherits

    The properties of [Object.prototype]: eleven functions and the
    accessor [__proto__]. *)

Definition Object_prototype_functions : list string :=
  ["constructor"; "hasOwnProperty"; "isPrototypeOf"; "propertyIsEnumerable";
   "toLocaleString"; "toString"; "valueOf";
   "__defineGetter__"; "__defineSetter__"; "__lookupGetter__"; "__lookupSetter__"].

Definition is_function_name (name : string) : bool :=
  existsb (String.eqb name) Object_prototype_functions.

(** [name in {}]. *)
Definition inherited (name : string) : bool :=
  String.eqb name "__proto__" || is_function_name name.

End JS.

(** ** Numbers

    A JavaScript number is an IEEE 754 binary64 value. A finite one is
    given by the rational it stands for; the two zeros are not told apart
    (no operation the class uses tells them apart, and both print as [0]).
    Every operation computes the exact result and rounds it to the nearest
    double, ties to even, with gradual underflow and overflow to infinity. *)

Module Number.
#[local] Open Scope Q_scope.

Inductive number : Type :=
| NaN
| Infinity (negative : bool)
| Finite (x : Q).

(** The exponent of [x], not zero: the [e] with [2^e <= |x| < 2^(e+1)]. *)
Definition ilog2 (x : Q) : Z :=
  let d := (Z.log2 (Z.abs (Qnum x)) - Z.log2 (Zpos (Qden x)))%Z in
  if Qle_bool (2 ^ d) (Qabs x) then d else (d - 1)%Z.

(** The nearest integer, the even one of two that are equally near. *)
Definition rne (t : Q) : Z :=
  let f := Qfloor t in
  match Qcompare (t - inject_Z f) (1 # 2) with
  | Lt => f
  | Gt => (f + 1)%Z
  | Eq => if Z.even f then f else (f + 1)%Z
  end.

(** The double nearest to [x]: 53 bits of precision down to the exponent
    -1022, multiples of [2^-1074] below, infinity from [2^1024] on. *)
Definition round (x : Q) : number :=
  if Qeq_bool x 0 then Finite 0
  else
    let e := (Z.max (ilog2 x) (-1022) - 52)%Z in
    let y := inject_Z (rne (x * 2 ^ (- e))) * 2 ^ e in
    if Qle_bool (2 ^ 1024) (Qabs y) then Infinity (negb (Qle_bool 0 y))
    else Finite (Qred y).

Definition negative (x : Q) : bool := negb (Qle_bool 0 x).

(** [a + b]. *)
Definition add (a b : number) : number :=
  match a, b with
  | NaN, _ | _, NaN => NaN
  | Infinity s, Infinity s' => if Bool.eqb s s' then Infinity s else NaN
  | Infinity s, Finite _ | Finite _, Infinity s => Infinity s
  | Finite x, Finite y => round (x + y)
  end.

(** [a * b]. *)
Definition mul (a b : number) : number :=
  match a, b with
  | NaN, _ | _, NaN => NaN
  | Infinity s, Infinity s' => Infinity (xorb s s')
  | Infinity s, Finite y | Finite y, Infinity s =>
      if Qeq_bool y 0 then NaN else Infinity (xorb s (negative y))
  | Finite x, Finite y => round (x * y)
  end.

(** [a / d] for a positive whole number [d]. *)
Definition div (a : number) (d : positive) : number :=
  match a with
  | Finite x => round (x / inject_Z (Zpos d))
  | _ => a
  end.

(** [Math.floor(a)]. *)
Definition floor (a : number) : number :=
  match a with
  | Finite x => Finite (inject_Z (Qfloor x))
  | _ => a
  end.

(** The number a whole number converts to. *)
Definition of_Z (z : Z) : number := round (inject_Z z).

(** The number a decimal literal of value [q] stands for. *)
Definition literal (q : Q) : number := round q.

End Number.

(** ** The [cookie] package (parse and serialize of cookie@0.5 / 0.6) *)

Module Cookie.
#[local] Open Scope Z_scope.

(** [fieldContentRegExp]: one or more characters out of U+0009,
    U+0020..U+007E and U+0080..U+00FF; the latter are the two-byte forms
    C2 80 .. C3 BF. *)
Fixpoint field_chars (s : string) : bool :=
  match s with
  | "" => true
  | String c r =>
      let b := byte_of_ascii c in
      if (b =? 9) || ((0x20 <=? b) && (b <=? 0x7e)) then field_chars r
      else match r with
           | String c' r' =>
               ((b =? 0xC2) || (b =? 0xC3)) && JS.in_range 0x80 0xBF c' && field_chars r'
           | "" => false
           end
  end.

Definition fieldContent (s : string) : bool :=
  negb (String.eqb s "") && field_chars s.

(** The options [Session.getCookie] passes. *)
Record SerializeOptions : Type :=
  { httpOnly : bool; secure : bool; path : option string }.

(** [serialize(name, val, options)]. [val] is given as the string
    [encodeURIComponent] converts it to ([undefined] as the text
    "undefined"). *)
Definition serialize (name : string) (val : string) (opt : SerializeOptions)
  : Completion string :=
  if negb (fieldContent name) then Throw (TypeError "argument name is invalid")
  else
    match JS.encodeURIComponent val with
    | Throw e => Throw e
    | Normal value =>
        if negb (String.eqb value "") && negb (fieldContent value)
        then Throw (TypeError "argument val is invalid")
        else
          let str := name +:+ "=" +:+ value in
          match
            match path opt with
            | Some p =>
                if String.eqb p "" then Normal str
                else if negb (fieldContent p) then Throw (TypeError "option path is invalid")
                else Normal (str +:+ "; Path=" +:+ p)
            | None => Normal str
            end
          with
          | Throw e => Throw e
          | Normal str =>
              let str := if httpOnly opt then str +:+ "; HttpOnly" else str in
              let str := if secure opt then str +:+ "; Secure" else str in
              Normal str
          end
    end.

(** The pieces of [str] between semicolons. *)
Fixpoint split (sep : ascii) (s : string) : list string :=
  match s with
  | "" => [""]
  | String c r =>
      if Ascii.eqb c sep then "" :: split sep r
      else match split sep r with
           | seg :: segs => String c seg :: segs
           | [] => [String c ""]
           end
  end.

(** [cut sep s]: what stands before and after the first [sep] of [s]. *)
Fixpoint cut (sep : ascii) (s : string) : option (string * string) :=
  match s with
  | "" => None
  | String c r =>
      if Ascii.eqb c sep then Some ("", r)
      else (fun p : string * string => (String c (fst p), snd p)) <$> cut sep r
  end.

(** [val.slice(1, -1)] for a value that starts with a double quote: the
    first and the last UTF-16 code unit go. A character of one to three
    bytes is one code unit; a character of four bytes is two, and what
    stays of it is its high surrogate. *)
Definition high_surrogate (b0 b1 b2 b3 : Z) : string :=
  let cp := Z.shiftl (b0 mod 8) 18 + Z.shiftl (b1 mod 64) 12
            + Z.shiftl (b2 mod 64) 6 + b3 mod 64 in
  let hs := 0xD800 + Z.shiftr (cp - 0x10000) 10 in
  String (ascii_of_byte 0xED)
    (String (ascii_of_byte (0x80 + Z.shiftr hs 6 mod 64))
       (String (ascii_of_byte (0x80 + hs mod 64)) "")).

Definition drop_last (s : string) : string :=
  match String.rev s with
  | "" => ""
  | String k1 r1 =>
      if JS.in_range 0x80 0xBF k1 then
        match r1 with
        | String k2 r2 =>
            if JS.in_range 0x80 0xBF k2 then
              match r2 with
              | String k3 r3 =>
                  if JS.in_range 0x80 0xBF k3 then
                    match r3 with
                    | String k4 r4 =>
                        String.rev r4 +:+
                        high_surrogate (byte_of_ascii k4) (byte_of_ascii k3)
                          (byte_of_ascii k2) (byte_of_ascii k1)
                    | "" => String.rev r1
                    end
                  else String.rev r3
              | "" => String.rev r1
              end
            else String.rev r2
        | "" => ""
        end
      else String.rev r1
  end.

Definition unquote (val : string) : string :=
  match val with
  | String c r => if byte_of_ascii c =? 0x22 then drop_last r else val
  | "" => val
  end.

(** [decode] guarded by [tryDecode]: a value that does not decode is kept
    as it stands. *)
Definition contains (c : ascii) (s : string) : bool :=
  existsb (Ascii.eqb c) (String.list_ascii_of_string s).

Definition tryDecode (str : string) : string :=
  if contains "%" str then
    match JS.decodeURIComponent str with
    | Some d => d
    | None => str
    end
  else str.

(** One piece [key=val]; a piece without [=] is skipped and a value is
    assigned only where [obj[key]] is [undefined]: the first value given
    for a name is kept, and a name that [obj], a plain object, inherits is
    never assigned. The map holds the own properties of [obj]. *)
Definition assign (obj : gmap string string) (piece : string) : gmap string string :=
  match cut "=" piece with
  | None => obj
  | Some (k, v) =>
      let key := JS.trim k in
      if JS.inherited key then obj
      else match obj !! key with
           | Some _ => obj
           | None => <[key := tryDecode (unquote (JS.trim v))]> obj
           end
  end.

Definition parse (str : string) : gmap string string :=
  fold_left assign (split ";" str) ∅.

End Cookie.

(** ** DynamoDB values, commands and the client *)

(** What an object inherits from: [Object.prototype], as every object
    written as a literal or built by the client does, or the object
    [{ S: value }] that an assignment [o["__proto__"] = { S: value }] made
    the prototype of [o]. *)
Inductive Prototype : Type :=
| ObjectPrototype
| ValueObject (value : string).

(** An attribute value, the object [{ S: … }], [{ N: … }], [{ BOOL: … }],
    [{ NULL: true }] or [{ M: { … } }]; the object under [M] is given by
    its own properties and its prototype. *)
#[warnings="-register-all"] Inductive AttributeValue : Type :=
| AttrS (s : string)
| AttrN (n : string)
| AttrBOOL (b : bool)
| AttrNULL
| AttrM (m : gmap string AttributeValue) (proto : Prototype).

(** An object holding attribute values, such as [data.M]. *)
Record Obj : Type := mkObj
  { own : gmap string AttributeValue;
    proto : Prototype }.

(** The object a literal [{ k: v, … }] makes. *)
Definition plain (m : gmap string AttributeValue) : Obj := mkObj m ObjectPrototype.

(** The values the class computes with. A [string | false] field of the
    class holds [JsString _] or [JsBool false]; [JsUndefined] is what a
    missing property reads as. *)
Inductive JsValue : Type :=
| JsUndefined
| JsBool (b : bool)
| JsString (s : string)
| JsObject (o : Obj).

(** [if (v)]. *)
Definition truthy (v : JsValue) : bool :=
  match v with
  | JsUndefined => false
  | JsBool b => b
  | JsString s => negb (String.eqb s "")
  | JsObject _ => true
  end.

(** [v != false]: an object or [undefined] never equals [false]; a string
    does when its number is zero. *)
Definition loose_ne_false (v : JsValue) : bool :=
  match v with
  | JsUndefined => true
  | JsBool b => b
  | JsString s => negb (JS.number_is_zero s)
  | JsObject _ => true
  end.

(** [v != '']: [undefined] and objects never equal the empty string,
    [false] does (both are the number zero), a string does when it is
    empty. *)
Definition loose_ne_empty (v : JsValue) : bool :=
  match v with
  | JsUndefined => true
  | JsBool b => b
  | JsString s => negb (String.eqb s "")
  | JsObject _ => true
  end.

(** [String(v)]. *)
Definition ToString (v : JsValue) : string :=
  match v with
  | JsUndefined => "undefined"
  | JsBool b => if b then "true" else "false"
  | JsString s => s
  | JsObject _ => "[object Object]"
  end.

(** *** Reading a property

    [o[key]] looks for an own property of [o], then along the prototype
    chain. [getValue] reads twice, [M[key]?.[type]]; what the first read
    can find is an attribute value, [Object.prototype] itself (through the
    accessor [__proto__]), a string (the [S] of a prototype set by
    [setValue]), one of the functions of [Object.prototype], or nothing. *)
Inductive Found : Type :=
| FoundAttribute (av : AttributeValue)
| FoundObjectPrototype
| FoundString (s : string)
| FoundFunction (name : string)
| NotFound.

(** What the second read gives. Members of a string and members of a
    built-in function, other than the ones given below, are values of the
    runtime this development does not look into: [StringMember s name]
    stands for [s[name]] and [FunctionMember f name] for
    [Object.prototype[f][name]], whatever they are ([undefined] included). *)
Inductive Property : Type :=
| Value (v : JsValue)
| Null
| TheObjectPrototype
| BuiltinFunction (name : string)
| FunctionMember (function name : string)
| StringMember (s : string) (name : string).

(** The type tags of DynamoDB. No string and no built-in function has a
    property of such a name. *)
Definition tags : list string :=
  ["S"; "N"; "B"; "SS"; "NS"; "BS"; "M"; "L"; "NULL"; "BOOL"].

Definition is_tag (type : string) : bool := existsb (String.eqb type) tags.

(** The own property [type] of an attribute value. *)
Definition attr_own (av : AttributeValue) (type : string) : option JsValue :=
  match av with
  | AttrS s => if String.eqb type "S" then Some (JsString s) else None
  | AttrN n => if String.eqb type "N" then Some (JsString n) else None
  | AttrBOOL b => if String.eqb type "BOOL" then Some (JsBool b) else None
  | AttrNULL => if String.eqb type "NULL" then Some (JsBool true) else None
  | AttrM m p => if String.eqb type "M" then Some (JsObject (mkObj m p)) else None
  end.

(** [av[type]] for a type tag such as ['S'] or ['BOOL']. *)
Definition attr_get (av : AttributeValue) (type : string) : JsValue :=
  default JsUndefined (attr_own av type).

(** [o[key]] for an [o] that has no own property [key] and inherits from
    [Object.prototype] only; [prototype] is what the getter of [__proto__]
    gives for [o]. *)
Definition Object_prototype_get (prototype : Found) (key : string) : Found :=
  if String.eqb key "__proto__" then prototype
  else if JS.is_function_name key then FoundFunction key
  else NotFound.

(** [o[key]]. *)
Definition get_property (o : Obj) (key : string) : Found :=
  match own o !! key with
  | Some av => FoundAttribute av
  | None =>
      match proto o with
      | ObjectPrototype => Object_prototype_get FoundObjectPrototype key
      | ValueObject value =>
          if String.eqb key "S" then FoundString value
          else Object_prototype_get (FoundAttribute (AttrS value)) key
      end
  end.

(** The [name] property of the function [Object.prototype[f]]. *)
Definition function_name (f : string) : string :=
  if String.eqb f "constructor" then "Object" else f.

(** [x?.[type]] for what the first read found. Reading [caller] or
    [arguments] off a built-in function throws. *)
Definition get_member (x : Found) (type : string) : Completion Property :=
  match x with
  | NotFound => Normal (Value JsUndefined)
  | FoundAttribute av =>
      Normal match attr_own av type with
             | Some v => Value v
             | None =>
                 if String.eqb type "__proto__" then TheObjectPrototype
                 else if JS.is_function_name type then BuiltinFunction type
                 else Value JsUndefined
             end
  | FoundObjectPrototype =>
      Normal (if String.eqb type "__proto__" then Null
              else if JS.is_function_name type then BuiltinFunction type
              else Value JsUndefined)
  | FoundString s =>
      Normal (if is_tag type then Value JsUndefined else StringMember s type)
  | FoundFunction f =>
      if String.eqb type "caller" || String.eqb type "arguments"
      then Throw (TypeError "'caller', 'callee', and 'arguments' properties may not be accessed")
      else Normal (if String.eqb type "name" then Value (JsString (function_name f))
                   else if is_tag type then Value JsUndefined
                   else FunctionMember f type)
  end.

(** [o[key]?.[type]]. *)
Definition read_property (o : Obj) (key type : string) : Completion Property :=
  get_member (get_property o key) type.

(** [o[key] = { S: value }]: the property is set on [o] itself, except
    that [__proto__], when [o] has no own property of that name, reaches
    the setter [o] inherits, which makes [{ S: value }] the prototype of
    [o]. *)
Definition set_property (o : Obj) (key value : string) : Obj :=
  match own o !! key with
  | None =>
      if String.eqb key "__proto__" then mkObj (own o) (ValueObject value)
      else mkObj (<[key := AttrS value]> (own o)) (proto o)
  | Some _ => mkObj (<[key := AttrS value]> (own o)) (proto o)
  end.

(** What [send] resolves to; only [Item] is ever read. *)
Record CommandOutput : Type :=
  { Item : option (gmap string AttributeValue) }.

(** The three commands the class builds. [ttl] is the number whose
    [toString()] is sent as [{ N: ttl }]; [Key] and [sessionid] are sent as
    [{ S: … }]; [data] is the object sent as [{ M: data }]. *)
Inductive Command : Type :=
| GetItemCommand (TableName : option string) (Key : string)
| PutItemCommand (TableName : option string) (sessionid : string)
    (data : Obj) (ttl : Number.number)
| UpdateItemCommand (TableName : option string) (Key : string)
    (ttl : Number.number) (data : Obj).

Definition command_key (c : Command) : string :=
  match c with
  | GetItemCommand _ k => k
  | PutItemCommand _ k _ _ => k
  | UpdateItemCommand _ k _ _ => k
  end.

Definition is_write (c : Command) : bool :=
  match c with
  | GetItemCommand _ _ => false
  | _ => true
  end.

Definition command_ttl (c : Command) : option Number.number :=
  match c with
  | GetItemCommand _ _ => None
  | PutItemCommand _ _ _ t => Some t
  | UpdateItemCommand _ _ t _ => Some t
  end.

Definition command_data (c : Command) : option Obj :=
  match c with
  | GetItemCommand _ _ => None
  | PutItemCommand _ _ d _ => Some d
  | UpdateItemCommand _ _ _ d => Some d
  end.

(** ** The handle and its environment *)

(** [SessionOptions]. *)
Record SessionOptions : Type := { ttlInMinutes : Number.number }.

(** The fields of a [Session] object. [sessionId] is declared
    [string | false]; [sessionHash] is [false] ([None]) or a string;
    [session] is [undefined] ([None]) or an output of [send]. The client
    [dbClient] is the parameter [send] below; [state] is never used. *)
Record Session : Type := mkSession
  { sessionId : JsValue;
    sessionHash : option string;
    session : option CommandOutput;
    ttl : Number.number }.

(** Everything outside the handle: the state of the store behind the
    client, the commands sent so far (oldest first), how many times the
    clock was read and how many UUIDs were drawn. *)
Record World (DB : Type) : Type := mkWorld
  { db : DB;
    calls : list Command;
    dates : nat;
    draws : nat }.
Arguments mkWorld {DB} _ _ _ _.
Arguments db {DB} _.
Arguments calls {DB} _.
Arguments dates {DB} _.
Arguments draws {DB} _.

(** A method body: it runs on the handle and the world, completes normally
    or throws, and leaves its assignments behind in both cases. *)
Definition Js (DB A : Type) : Type :=
  Session * World DB -> Completion A * (Session * World DB).

#[export] Instance Js_ret {DB} : MRet (Js DB) :=
  fun A (a : A) st => (Normal a, st).

#[export] Instance Js_bind {DB} : MBind (Js DB) :=
  fun A B (k : A -> Js DB B) (m : Js DB A) st =>
    match m st with
    | (Normal a, st') => k a st'
    | (Throw e, st') => (Throw e, st')
    end.

Definition throw {DB A} (e : JsError) : Js DB A := fun st => (Throw e, st).

(** [try { body } catch (err) { handler }]. *)
Definition try_catch {DB A} (body : Js DB A) (handler : JsError -> Js DB A) : Js DB A :=
  fun st =>
    match body st with
    | (Throw e, st') => handler e st'
    | r => r
    end.

Definition this {DB} : Js DB Session := fun st => (Normal (fst st), st).

Definition assign {DB} (f : Session -> Session) : Js DB unit :=
  fun st => (Normal tt, (f (fst st), snd st)).

(** [console.error] writes to a stream nothing here reads. *)
Definition console_error {DB} (message : string) : Js DB unit := mret tt.

(** [this.session?.Item?.data] and [this.session?.Item?.data?.M]: [None] is
    [undefined]. *)
Definition output_data (out : CommandOutput) : option AttributeValue :=
  match Item out with
  | Some item => item !! "data"
  | None => None
  end.

Definition session_data (h : Session) : option AttributeValue :=
  match session h with
  | Some out => output_data out
  | None => None
  end.

Definition attr_M (data : AttributeValue) : option Obj :=
  match data with
  | AttrM m p => Some (mkObj m p)
  | _ => None
  end.

Definition session_M (h : Session) : option Obj :=
  match session_data h with
  | Some data => attr_M data
  | None => None
  end.

(** Assignments to the fields. *)
Definition set_sessionId (v : JsValue) (h : Session) : Session :=
  mkSession v (sessionHash h) (session h) (ttl h).
Definition set_sessionHash (v : option string) (h : Session) : Session :=
  mkSession (sessionId h) v (session h) (ttl h).
Definition set_session (v : option CommandOutput) (h : Session) : Session :=
  mkSession (sessionId h) (sessionHash h) v (ttl h).

(** [this.session.Item.data.M = o], for a [data] that is there. *)
Definition output_set_M (o : Obj) (out : CommandOutput) : CommandOutput :=
  {| Item := (fun item => <["data" := AttrM (own o) (proto o)]> item) <$> Item out |}.

Definition set_session_M (o : Obj) (h : Session) : Session :=
  set_session (output_set_M o <$> session h) h.

(** [Session.getSessionId]:
<<
    if (!cookieString) { return false; }
    const cookies = cookie.parse(cookieString);
    if (cookies?.session != '') { return cookies.session; }
    return false;
>>
    [cookies.session] is [undefined] when the header has no session cookie. *)
Definition getSessionId (cookieString : string) : JsValue :=
  if String.eqb cookieString "" then JsBool false
  else
    let cookies := Cookie.parse cookieString in
    let cookies_session :=
      match cookies !! "session" with
      | Some s => JsString s
      | None => JsUndefined
      end in
    if loose_ne_empty cookies_session then cookies_session else JsBool false.

(** [new Session(cookieString, dynamoDBClient, options)]:
<<
    this.sessionId = this.getSessionId(cookieString);
    if (this.sessionId) { this.sessionHash = this.hash(this.sessionId); }
    this.ttl = options?.ttlInMinutes ?? 15;
>>
    with [sessionHash] initialised to [false] and [session] left undefined. *)
Definition constructor (cookieString : string) (options : option SessionOptions) : Session :=
  let id := getSessionId cookieString in
  {| sessionId := id;
     sessionHash := if truthy id then Some (hash (ToString id)) else None;
     session := None;
     ttl := match options with
            | Some o => ttlInMinutes o
            | None => Number.Finite 15
            end |}.

(** [Session.getValue], with [type = 'S'] by default:
<<
    return this.session?.Item?.data?.M[key]?.[type];
>>
    The chain stops at an undefined [session], [Item] or [data]; a [data]
    without [M] is not guarded, and reading [M[key]] off it throws. Both
    reads after that go along the prototype chain. *)
Definition getValue (h : Session) (key : string) (type : string) : Completion Property :=
  match session_data h with
  | None => Normal (Value JsUndefined)
  | Some data =>
      match attr_M data with
      | None => Throw (TypeError "Cannot read properties of undefined")
      | Some o => read_property o key type
      end
  end.

(** [Session.isLoggedIn]:
<<
    return this.getValue('loggedin', 'BOOL') ?? false;
>>
 *)
Definition isLoggedIn (h : Session) : Completion Property :=
  match getValue h "loggedin" "BOOL" with
  | Normal (Value JsUndefined) | Normal Null => Normal (Value (JsBool false))
  | r => r
  end.

(** [Session.getCookie]:
<<
    const value = (this.sessionId != false) ? this.sessionId : '';
    return cookie.serialize('session', value, { httpOnly: true, secure: true, path: '/' });
>>
 *)
Definition getCookie (h : Session) : Completion string :=
  let value := if loose_ne_false (sessionId h) then sessionId h else JsString "" in
  Cookie.serialize "session" (ToString value)
    {| Cookie.httpOnly := true; Cookie.secure := true; Cookie.path := Some "/" |}.

(** ** Clients, clocks and generators to run the class on *)

(** A table keyed by [sessionid]: [GetItem] reads an item, [PutItem]
    replaces it, [UpdateItem] sets [ttl] and [data] on it (creating it when
    absent). What is kept of [data] are its own properties, as the SDK
    serialises them; [ttl] is kept as the text of a whole number below
    10^21 (another number as the text NaN). *)
Definition decimal (z : Z) : string := NilZero.string_of_int (Z.to_int z).

Definition number_text (n : Number.number) : string :=
  match n with
  | Number.Finite x => decimal (Qfloor x)
  | _ => "NaN"
  end.

Definition stored (d : Obj) : AttributeValue := AttrM (own d) ObjectPrototype.

Definition table_send (command : Command) (t : gmap string (gmap string AttributeValue))
  : Completion CommandOutput * gmap string (gmap string AttributeValue) :=
  match command with
  | GetItemCommand _ k => (Normal {| Item := t !! k |}, t)
  | PutItemCommand _ k d n =>
      (Normal {| Item := None |},
       <[k := {[ "sessionid" := AttrS k; "data" := stored d; "ttl" := AttrN (number_text n) ]}]> t)
  | UpdateItemCommand _ k n d =>
      (Normal {| Item := None |},
       <[k := <["ttl" := AttrN (number_text n)]>
                (<["data" := stored d]> (default {[ "sessionid" := AttrS k ]} (t !! k)))]> t)
  end.

(** A client whose every call is rejected. *)
Definition rejecting_send {DB : Type} (command : Command) (d : DB)
  : Completion CommandOutput * DB :=
  (Throw (ClientError "ProvisionedThroughputExceededException"), d).

Definition sample_getTime (n : nat) : Z := 1700000000500 + 1000 * Z.of_nat n.

Definition sample_randomUUID (n : nat) : string :=
  "123e4567-e89b-42d3-a456-42661417" +:+ decimal (1000 + Z.of_nat n mod 9000).

Definition sample_table : option string := Some "mijnuitkering-sessions".

Definition empty_world {DB : Type} (d : DB) : World DB := mkWorld d [] 0 0.

(** ** What [getSessionId] returns *)

Lemma getSessionId_empty : getSessionId "" = JsBool false.
Proof. reflexivity. Qed.

Lemma getSessionId_empty_value cookieString :
  Cookie.parse cookieString !! "session" = Some "" ->
  getSessionId cookieString = JsBool false.
Proof.
  intros H. unfold getSessionId. rewrite H.
  by destruct (String.eqb cookieString "").
Qed.

Lemma getSessionId_no_session_cookie cookieString :
  cookieString <> "" ->
  Cookie.parse cookieString !! "session" = None ->
  getSessionId cookieString = JsUndefined.
Proof.
  intros Hne%String.eqb_neq H. unfold getSessionId. by rewrite Hne, H.
Qed.

(** [getSessionId] is defined on every string: [false], [undefined], or
    the non-empty value of the session cookie. *)
Lemma getSessionId_range cookieString :
  getSessionId cookieString = JsBool false
  \/ getSessionId cookieString = JsUndefined
  \/ exists s, s <> "" /\ Cookie.parse cookieString !! "session" = Some s
               /\ getSessionId cookieString = JsString s.
Proof.
  unfold getSessionId. destruct (String.eqb cookieString ""); [by left|].
  destruct (Cookie.parse cookieString !! "session") as [s|]; [|by right; left].
  simpl. destruct (String.eqb_spec s "") as [->|Hne]; [by left|].
  right; right. by exists s.
Qed.

(** ** Rounding *)

Module Rounding.
Import Number.
#[local] Open Scope Q_scope.

Lemma rne_between (A B : Z) (t : Q) :
  inject_Z A <= t -> t <= inject_Z B -> (A <= rne t <= B)%Z.
Proof.
  intros HA HB. unfold rne.
  assert (Hf : (A <= Qfloor t)%Z).
  { rewrite <- (Qfloor_Z A). by apply Qfloor_resp_le. }
  pose proof (Qfloor_le t) as Hle.
  assert (Hup : 1 # 2 <= t - inject_Z (Qfloor t) -> (Qfloor t + 1 <= B)%Z).
  { intros Hhalf. assert (Hlt : inject_Z (Qfloor t) < inject_Z B) by lra.
    rewrite <- Zlt_Qlt in Hlt. lia. }
  assert (HfB : (Qfloor t <= B)%Z).
  { rewrite Zle_Qle. lra. }
  destruct (Qcompare_spec (t - inject_Z (Qfloor t)) (1 # 2)) as [He|Hl|Hg].
  - destruct (Z.even (Qfloor t)); [lia|]. assert (Qfloor t + 1 <= B)%Z by (apply Hup; lra). lia.
  - lia.
  - assert (Qfloor t + 1 <= B)%Z by (apply Hup; lra). lia.
Qed.

Lemma pow2_pos (e : Z) : 0 < 2 ^ e.
Proof. by apply Qpower_0_lt. Qed.

Lemma pow2_plus (a b : Z) : 2 ^ (a + b) == 2 ^ a * 2 ^ b.
Proof. by apply Qpower_plus. Qed.

Lemma pow2_inject (n : Z) : (0 <= n)%Z -> 2 ^ n == inject_Z (2 ^ n).
Proof. intros H. by rewrite (Zpower_Qpower 2 n H). Qed.

Lemma pow2_opp_mult (e : Z) : 2 ^ (- e) * 2 ^ e == 1.
Proof. rewrite <- pow2_plus. by replace (- e + e)%Z with 0%Z by lia. Qed.

(** The exponent of a number below [2 ^ k] is below [k]. *)
Lemma ilog2_lt (x : Q) (k : Z) : ~ x == 0 -> Qabs x < 2 ^ k -> (ilog2 x < k)%Z.
Proof.
  intros Hx Hk. unfold ilog2.
  set (p := Z.abs (Qnum x)). set (q := Qden x).
  set (d := (Z.log2 p - Z.log2 (Zpos q))%Z).
  destruct (Qle_bool (2 ^ d) (Qabs x)) eqn:Hb.
  - apply Qle_bool_iff in Hb.
    apply (Qpower_lt_compat_l_inv 2); [|done]. lra.
  - assert (Hd : (d <= k)%Z); [|lia].
    destruct (Z.le_gt_cases d k) as [|Hgt]; [done|]. exfalso.
    assert (Hp : (0 < p)%Z).
    { unfold p. destruct x as [n dn]. simpl.
      assert (n <> 0)%Z; [|lia]. intros ->. apply Hx. reflexivity. }
    assert (Habs : Qabs x == inject_Z p / inject_Z (Zpos q)).
    { destruct x as [n dn]. unfold p, q. simpl. unfold Qeq, Qdiv, Qmult, Qinv; simpl. lia. }
    pose proof (Z.log2_spec p Hp) as [Hp1 _].
    pose proof (Z.log2_spec (Zpos q) eq_refl) as [_ Hq2].
    assert (Hlp : (0 <= Z.log2 p)%Z) by apply Z.log2_nonneg.
    assert (Hlq : (0 <= Z.log2 (Zpos q))%Z) by apply Z.log2_nonneg.
    rewrite Zle_Qle, <- pow2_inject in Hp1 by done.
    rewrite Zlt_Qlt, <- pow2_inject in Hq2 by lia.
    assert (Hk' : 2 ^ k <= 2 ^ (d - 1)) by (apply Qpower_le_compat_l; [lia | lra]).
    assert (Hdq : 2 ^ (d - 1) * 2 ^ Z.succ (Z.log2 (Zpos q)) == 2 ^ Z.log2 p).
    { rewrite <- pow2_plus. by replace (d - 1 + Z.succ (Z.log2 (Zpos q)))%Z
        with (Z.log2 p) by (unfold d; lia). }
    assert (Hq0 : 0 < inject_Z (Zpos q)) by (rewrite <- (Zlt_Qlt 0); lia).
    pose proof (pow2_pos (d - 1)) as Hpos.
    assert (H1 : 2 ^ (d - 1) * inject_Z (Zpos q) < inject_Z p) by nra.
    assert (H2 : 2 ^ (d - 1) < Qabs x).
    { rewrite Habs. apply Qlt_shift_div_l; [done | exact H1]. }
    lra.
Qed.

(** Rounding keeps a number between the numbers of a grid [2 ^ -j] it
    lies between, when the grid is at least as coarse as the doubles are
    there. *)
Lemma round_between (j A B : Z) (x : Q) :
  (-971 <= j <= 1074)%Z -> (Z.abs A < 2 ^ 53)%Z -> (Z.abs B < 2 ^ 53)%Z ->
  inject_Z A * 2 ^ (- j) <= x -> x <= inject_Z B * 2 ^ (- j) ->
  exists y, round x = Finite y
            /\ inject_Z A * 2 ^ (- j) <= y /\ y <= inject_Z B * 2 ^ (- j).
Proof.
  intros Hj HA HB Hlo Hhi. unfold round.
  destruct (Qeq_bool x 0) eqn:Hz.
  { apply Qeq_bool_iff in Hz. exists 0. split; [done|]. rewrite <- Hz. done. }
  apply Qeq_bool_neq in Hz.
  pose proof (pow2_pos (- j)) as Hgj.
  assert (Habs : Qabs x < 2 ^ (53 - j)).
  { replace (53 - j)%Z with (53 + - j)%Z by lia. rewrite pow2_plus.
    assert (H53 : (2 : Q) ^ 53 == inject_Z (2 ^ 53)) by (by apply pow2_inject).
    rewrite H53.
    assert (HA' : - inject_Z (2 ^ 53) < inject_Z A).
    { rewrite <- inject_Z_opp, <- Zlt_Qlt. lia. }
    assert (HB' : inject_Z B < inject_Z (2 ^ 53)) by (rewrite <- Zlt_Qlt; lia).
    apply Qabs_Qlt_condition. split; nra. }
  pose proof (ilog2_lt x _ Hz Habs) as Hlog.
  set (e := (Z.max (ilog2 x) (-1022) - 52)%Z).
  assert (He : (0 <= - e - j)%Z) by (unfold e; lia).
  set (n := rne (x * 2 ^ (- e))).
  assert (Hsplit : 2 ^ (- j) * 2 ^ (- e) == inject_Z (2 ^ (- e - j))).
  { rewrite <- pow2_plus, <- pow2_inject by done.
    by replace (- j + - e)%Z with (- e - j)%Z by lia. }
  pose proof (pow2_pos (- e)) as Hge. pose proof (pow2_pos e) as Hge'.
  pose proof (pow2_opp_mult e) as Hinv.
  assert (Hn : (A * 2 ^ (- e - j) <= n <= B * 2 ^ (- e - j))%Z).
  { apply rne_between; rewrite inject_Z_mult, <- Hsplit; nra. }
  destruct Hn as [Hn1 Hn2]. rewrite Zle_Qle, inject_Z_mult, <- Hsplit in Hn1, Hn2.
  assert (Hy : inject_Z A * 2 ^ (- j) <= inject_Z n * 2 ^ e
               /\ inject_Z n * 2 ^ e <= inject_Z B * 2 ^ (- j)).
  { revert Hn1 Hn2 Hinv Hge Hge' Hgj.
    generalize (2 ^ (- j)) (2 ^ (- e)) (2 ^ e) (inject_Z n) (inject_Z A) (inject_Z B).
    intros c a b n' A' B' Hn1 Hn2 Hinv Ha Hb Hc.
    assert (H1 : A' * c * (a * b) <= n' * b) by nra.
    assert (H2 : n' * b <= B' * c * (a * b)) by nra.
    rewrite Hinv in H1, H2. lra. }
  destruct Hy as [Hy1 Hy2].
  destruct (Qle_bool (2 ^ 1024) (Qabs (inject_Z n * 2 ^ e))) eqn:Hov.
  - exfalso. apply Qle_bool_iff in Hov.
    assert (Hbig : Qabs (inject_Z n * 2 ^ e) < 2 ^ (53 - j)).
    { replace (53 - j)%Z with (53 + - j)%Z by lia. rewrite pow2_plus.
      assert (H53 : (2 : Q) ^ 53 == inject_Z (2 ^ 53)) by (by apply pow2_inject).
      rewrite H53.
      assert (HA' : - inject_Z (2 ^ 53) < inject_Z A).
      { rewrite <- inject_Z_opp, <- Zlt_Qlt. lia. }
      assert (HB' : inject_Z B < inject_Z (2 ^ 53)) by (rewrite <- Zlt_Qlt; lia).
      apply Qabs_Qlt_condition. split; nra. }
    assert (Hle : 2 ^ (53 - j) <= 2 ^ 1024).
    { apply Qpower_le_compat_l; [lia | lra]. }
    lra.
  - eexists. split; [reflexivity|]. rewrite Qred_correct. split; assumption.
Qed.


(** A whole number below [2^53] converts to itself. *)
Lemma of_Z_exact (z : Z) :
  (Z.abs z < 2 ^ 53)%Z -> exists y, Number.of_Z z = Finite y /\ y == inject_Z z.
Proof.
  intros Hz.
  assert (H : exists y, Number.round (inject_Z z) = Finite y
                 /\ inject_Z z * 2 ^ (- 0) <= y /\ y <= inject_Z z * 2 ^ (- 0)).
  { apply round_between; try lia; change (2 ^ (- 0)) with 1; lra. }
  destruct H as (y & Hy & H1 & H2). change (2 ^ (- 0)) with 1 in H1, H2.
  exists y. split; [exact Hy|]. lra.
Qed.

Lemma mul_60_whole (x : Q) (n : Z) :
  x == inject_Z n -> (Z.abs (n * 60) < 2 ^ 53)%Z ->
  exists s, Number.mul (Finite x) (Finite 60) = Finite s /\ s == inject_Z (n * 60).
Proof.
  intros Hx Hn. simpl.
  assert (H : exists y, Number.round (x * 60) = Finite y
                 /\ inject_Z (n * 60) * 2 ^ (- 0) <= y /\ y <= inject_Z (n * 60) * 2 ^ (- 0)).
  { apply round_between; try lia; rewrite inject_Z_mult, Hx;
      change (2 ^ (- 0)) with 1; change (inject_Z 60) with 60; lra. }
  destruct H as (y & Hy & H1 & H2). change (2 ^ (- 0)) with 1 in H1, H2.
  exists y. split; [exact Hy|]. lra.
Qed.

Lemma div_1000_between (x : Q) (ms : Z) :
  x == inject_Z ms -> (Z.abs ms <= 8640000000000000)%Z ->
  exists y, Number.div (Finite x) 1000 = Finite y
            /\ inject_Z (ms / 1000) <= y /\ y <= inject_Z (ms / 1000) + (1023 # 1024).
Proof.
  intros Hx Hms. simpl. change (inject_Z 1000) with 1000.
  pose proof (Z.div_mod ms 1000 ltac:(lia)) as Hdm.
  pose proof (Z.mod_pos_bound ms 1000 ltac:(lia)) as Hmod.
  assert (Hq : (Z.abs (ms / 1000) <= 8640000000000)%Z).
  { apply Z.abs_le. split.
    - apply Z.div_le_lower_bound; lia.
    - apply Z.div_le_upper_bound; lia. }
  assert (Hval : x / 1000 == inject_Z (ms / 1000) + inject_Z (ms mod 1000) * (1 # 1000)).
  { rewrite Hx. rewrite Hdm at 1. rewrite inject_Z_plus, inject_Z_mult.
    change (inject_Z 1000) with 1000. field. }
  assert (Hr : 0 <= inject_Z (ms mod 1000) /\ inject_Z (ms mod 1000) <= 999).
  { split; [rewrite <- (Zle_Qle 0) | rewrite <- (Zle_Qle _ 999)]; lia. }
  destruct (round_between 10 (ms / 1000 * 1024) (ms / 1000 * 1024 + 1023)
              (x / 1000)) as (y & Hy & H1 & H2); try lia.
  - rewrite Hval, inject_Z_mult. change (2 ^ (- (10)))%Q with (1 # 1024). 
    change (inject_Z 1024) with 1024. lra.
  - rewrite Hval, inject_Z_plus, inject_Z_mult. change (2 ^ (- (10)))%Q with (1 # 1024).
    change (inject_Z 1024) with 1024. change (inject_Z 1023) with 1023. lra.
  - exists y. split; [exact Hy|].
    rewrite inject_Z_mult in H1. rewrite inject_Z_plus, inject_Z_mult in H2.
    change (2 ^ (- (10)))%Q with (1 # 1024) in H1, H2.
    change (inject_Z 1024) with 1024 in H1, H2.
    change (inject_Z 1023) with 1023 in H2. lra.
Qed.

End Rounding.

Section Handle.

Context {DB : Type}.

(** [dbClient.send]: on a command and the state of the store, the output or
    the rejection, and the new state of the store. *)
Variable send : Command -> DB -> Completion CommandOutput * DB.

(** [new Date().getTime()] at the n-th reading of the clock, and the n-th
    result of [crypto.randomUUID()]. *)
Variable getTime : nat -> Z.
Variable randomUUID : nat -> string.

(** [process.env.SESSION_TABLE]. *)
Variable SESSION_TABLE : option string.

Definition dbClient_send (command : Command) : Js DB CommandOutput :=
  fun '(h, w) =>
    let '(r, db') := send command (db w) in
    (r, (h, mkWorld db' (calls w ++ [command]) (dates w) (draws w))).

Definition new_Date_getTime : Js DB Z :=
  fun '(h, w) =>
    (Normal (getTime (dates w)), (h, mkWorld (db w) (calls w) (S (dates w)) (draws w))).

Definition crypto_randomUUID : Js DB string :=
  fun '(h, w) =>
    (Normal (randomUUID (draws w)), (h, mkWorld (db w) (calls w) (dates w) (S (draws w)))).

(** [Session.ttlFromMinutes]:
<<
    const now = new Date();
    const ttl = Math.floor((now.getTime() / 1000) + minutes * 60).toString();
    return ttl;
>>
    The arithmetic is that of doubles; the result is kept as the number
    the string writes. *)
Definition expiry (ms : Z) (minutes : Number.number) : Number.number :=
  Number.floor
    (Number.add (Number.div (Number.of_Z ms) 1000)
                (Number.mul minutes (Number.Finite 60))).

Definition ttlFromMinutes (minutes : Number.number) : Js DB Number.number :=
  ms ← new_Date_getTime;
  mret (expiry ms minutes).

(** [Session.init]:
<<
    if (!this.sessionHash) { return false; }
    const getItemCommand = new GetItemCommand({
      TableName: process.env.SESSION_TABLE,
      Key: { sessionid: { S: this.sessionHash } },
    });
    try {
      const session = await this.dbClient.send(getItemCommand);
      if (session?.Item?.data !== undefined) {
        this.session = session;
        return session;
      } else {
        return false;
      }
    } catch (err) {
      console.error('Error getting session from DynamoDB: ' + err);
      throw err;
    }
>>
    [None] is the result [false]. *)
Definition init : Js DB (option CommandOutput) :=
  h ← this;
  match sessionHash h with
  | None => mret None
  | Some key =>
      if String.eqb key "" then mret None
      else
        let getItemCommand := GetItemCommand SESSION_TABLE key in
        try_catch
          (out ← dbClient_send getItemCommand;
           match output_data out with
           | Some _ =>
               assign (set_session (Some out));;
               mret (Some out)
           | None => mret None
           end)
          (fun err =>
             console_error "Error getting session from DynamoDB: ";;
             throw err)
  end.

(** [Session.updateSession]:
<<
    if (!this.sessionHash) {
      throw new Error('no sessionid, cannot update empty session');
    }
    const ttl = this.ttlFromMinutes(this.ttl);
    const command = new UpdateItemCommand({
      TableName: process.env.SESSION_TABLE,
      Key: { sessionid: { S: this.sessionHash } },
      UpdateExpression: 'SET #ttl = :ttl, #data = :data',
      ExpressionAttributeNames: { '#ttl': 'ttl', '#data': 'data' },
      ExpressionAttributeValues: { ':ttl': { N: ttl }, ':data': { M: sessionData } },
    });
    try {
      await this.dbClient.send(command);
    } catch (err) {
      console.error('Error updating session in DynamoDB: ' + err);
      throw err;
    }
    if (!this?.session?.Item?.data?.M) {
      throw Error('Session had no data before, was this a valid session?');
    }
    this.session.Item.data.M = sessionData;
>>
 *)
Definition updateSession (sessionData : Obj) : Js DB unit :=
  h ← this;
  match sessionHash h with
  | None => throw (Error "no sessionid, cannot update empty session")
  | Some key =>
      if String.eqb key "" then throw (Error "no sessionid, cannot update empty session")
      else
        ttl ← ttlFromMinutes (ttl h);
        let command := UpdateItemCommand SESSION_TABLE key ttl sessionData in
        try_catch
          (dbClient_send command;; mret tt)
          (fun err =>
             console_error "Error updating session in DynamoDB: ";;
             throw err);;
        h ← this;
        match session_M h with
        | None => throw (Error "Session had no data before, was this a valid session?")
        | Some _ => assign (set_session_M sessionData)
        end
  end.

(** [Session.setValue]:
<<
    if (!this.session?.Item?.data) { await this.init(); }
    const data = this.session?.Item?.data;
    data.M[key] = { S: value };
    return this.updateSession(data.M);
>>
    [data] is the object [this.session.Item.data] itself, so the
    assignment [data.M[key] = { S: value }] changes the handle's copy before
    [updateSession] runs; it throws when [data] or [data.M] is undefined.
    The object handed to [updateSession] is [data.M] itself. *)
Definition setValue (key : string) (value : string) : Js DB unit :=
  h ← this;
  match session_data h with
  | None => init;; mret tt
  | Some _ => mret tt
  end;;
  h ← this;
  match session_data h with
  | None => throw (TypeError "Cannot read properties of undefined (reading 'M')")
  | Some data =>
      match attr_M data with
      | None => throw (TypeError "Cannot set properties of undefined")
      | Some o =>
          assign (set_session_M (set_property o key value));;
          updateSession (set_property o key value)
      end
  end.

(** [Session.createSession]:
<<
    const sessionId = crypto.randomUUID();
    this.sessionHash = this.hash(sessionId);
    const ttl = this.ttlFromMinutes(this.ttl);
    const command = new PutItemCommand({
      TableName: process.env.SESSION_TABLE,
      Item: {
        sessionid: { S: this.sessionHash },
        data: { M: sessionData },
        ttl: { N: ttl },
      },
    });
    await this.dbClient.send(command);
    this.sessionId = sessionId;
    return sessionId;
>>
    The key of the item is [this.sessionHash], assigned two lines above; a
    rejection of [send] is not caught. *)
Definition createSession (sessionData : Obj) : Js DB string :=
  sessionId ← crypto_randomUUID;
  assign (set_sessionHash (Some (hash sessionId)));;
  h ← this;
  ttl ← ttlFromMinutes (ttl h);
  dbClient_send (PutItemCommand SESSION_TABLE (hash sessionId) sessionData ttl);;
  assign (set_sessionId (JsString sessionId));;
  mret sessionId.

(** A caller: the methods it calls on the handle, one after the other,
    going on with the same handle whatever each call completed with. *)
Inductive Call : Type :=
| CallInit
| CallUpdateSession (sessionData : Obj)
| CallSetValue (key value : string)
| CallCreateSession (sessionData : Obj).

Definition run_call (c : Call) (st : Session * World DB) : Session * World DB :=
  match c with
  | CallInit => snd (init st)
  | CallUpdateSession m => snd (updateSession m st)
  | CallSetValue k v => snd (setValue k v st)
  | CallCreateSession m => snd (createSession m st)
  end.

Fixpoint run_calls (cs : list Call) (st : Session * World DB) : Session * World DB :=
  match cs with
  | [] => st
  | c :: cs' => run_calls cs' (run_call c st)
  end.

Definition is_create (c : Call) : bool :=
  match c with
  | CallCreateSession _ => true
  | _ => false
  end.

(** The time to live a handle was constructed with. *)
Definition configured_ttl (options : option SessionOptions) : Number.number :=
  match options with
  | Some o => ttlInMinutes o
  | None => Number.Finite 15
  end.

(** The tokens of a handle: the one its cookie header gave, and the UUIDs
    of the generator. *)
Definition token_of (cookieString : string) (t : string) : Prop :=
  getSessionId cookieString = JsString t \/ exists n, t = randomUUID n.

(** ** What each method does, case by case *)

Definition sent (command : Command) (db' : DB) (w : World DB) : World DB :=
  mkWorld db' (calls w ++ [command]) (dates w) (draws w).

Definition ticked (w : World DB) : World DB :=
  mkWorld (db w) (calls w) (S (dates w)) (draws w).

Definition drawn (w : World DB) : World DB :=
  mkWorld (db w) (calls w) (dates w) (S (draws w)).

Definition has_key (h : Session) (key : string) : Prop :=
  sessionHash h = Some key /\ key <> "".

Definition no_key (h : Session) : Prop :=
  match sessionHash h with
  | None => True
  | Some key => key = ""
  end.

Lemma init_no_key h w : no_key h -> init (h, w) = (Normal None, (h, w)).
Proof.
  unfold no_key, init, mbind, Js_bind, this; simpl.
  destruct (sessionHash h) as [key|]; [intros ->|]; reflexivity.
Qed.

Lemma init_has_key h w key :
  has_key h key ->
  init (h, w) =
  let command := GetItemCommand SESSION_TABLE key in
  match send command (db w) with
  | (Normal out, db') =>
      match output_data out with
      | Some _ => (Normal (Some out), (set_session (Some out) h, sent command db' w))
      | None => (Normal None, (h, sent command db' w))
      end
  | (Throw e, db') => (Throw e, (h, sent command db' w))
  end.
Proof.
  intros [Hk Hne]. apply String.eqb_neq in Hne.
  unfold init, mbind, Js_bind, this; simpl. rewrite Hk, Hne.
  unfold try_catch, dbClient_send, mbind, Js_bind; simpl.
  destruct (send _ _) as [[out|e] db']; simpl; [|reflexivity].
  destruct (output_data out); reflexivity.
Qed.

Lemma updateSession_no_key h w m :
  no_key h ->
  updateSession m (h, w) =
  (Throw (Error "no sessionid, cannot update empty session"), (h, w)).
Proof.
  unfold no_key, updateSession, mbind, Js_bind, this; simpl.
  destruct (sessionHash h) as [key|]; [intros ->|]; reflexivity.
Qed.

Lemma updateSession_has_key h w m key :
  has_key h key ->
  updateSession m (h, w) =
  let command :=
    UpdateItemCommand SESSION_TABLE key (expiry (getTime (dates w)) (ttl h)) m in
  match send command (db w) with
  | (Normal _, db') =>
      match session_M h with
      | Some _ => (Normal tt, (set_session_M m h, sent command db' (ticked w)))
      | None =>
          (Throw (Error "Session had no data before, was this a valid session?"),
           (h, sent command db' (ticked w)))
      end
  | (Throw e, db') => (Throw e, (h, sent command db' (ticked w)))
  end.
Proof.
  intros [Hk Hne]. apply String.eqb_neq in Hne.
  unfold updateSession, mbind, Js_bind, this; simpl. rewrite Hk, Hne.
  unfold ttlFromMinutes, new_Date_getTime, try_catch, dbClient_send, mbind, Js_bind; simpl.
  destruct (send _ _) as [[out|e] db']; simpl; [|reflexivity].
  destruct (session_M h); reflexivity.
Qed.

Lemma createSession_eq h w m :
  createSession m (h, w) =
  let sessionId := randomUUID (draws w) in
  let h1 := set_sessionHash (Some (hash sessionId)) h in
  let command :=
    PutItemCommand SESSION_TABLE (hash sessionId) m (expiry (getTime (dates w)) (ttl h)) in
  match send command (db w) with
  | (Normal _, db') =>
      (Normal sessionId, (set_sessionId (JsString sessionId) h1, sent command db' (ticked (drawn w))))
  | (Throw e, db') => (Throw e, (h1, sent command db' (ticked (drawn w))))
  end.
Proof.
  unfold createSession, crypto_randomUUID, ttlFromMinutes, new_Date_getTime,
    dbClient_send, assign, this, mbind, Js_bind; simpl.
  destruct (send _ _) as [[out|e] db']; reflexivity.
Qed.

Lemma setValue_eq h w key value :
  setValue key value (h, w) =
  match (match session_data h with
         | None => init (h, w)
         | Some _ => (Normal None, (h, w))
         end) with
  | (Throw e, st) => (Throw e, st)
  | (Normal _, (h1, w1)) =>
      match session_data h1 with
      | None =>
          (Throw (TypeError "Cannot read properties of undefined (reading 'M')"), (h1, w1))
      | Some data =>
          match attr_M data with
          | None => (Throw (TypeError "Cannot set properties of undefined"), (h1, w1))
          | Some o =>
              updateSession (set_property o key value)
                (set_session_M (set_property o key value) h1, w1)
          end
      end
  end.
Proof.
  unfold setValue at 1. unfold mbind, Js_bind, this; simpl.
  destruct (session_data h) eqn:Hd; simpl.
  - rewrite Hd. destruct (attr_M a); reflexivity.
  - destruct (init (h, w)) as [[r|e] [h1 w1]]; simpl; [|reflexivity].
    destruct (session_data h1) as [data|]; [|reflexivity].
    destruct (attr_M data); reflexivity.
Qed.

(** ** The cached mapping *)

Lemma session_data_set_session_M h o data :
  session_data h = Some data ->
  session_data (set_session_M o h) = Some (AttrM (own o) (proto o)).
Proof.
  unfold session_data, set_session_M, set_session, output_set_M, output_data; simpl.
  destruct (session h) as [[[item|]]|]; simpl; try discriminate.
  intros _. apply lookup_insert_eq.
Qed.

Lemma session_M_data h o :
  session_M h = Some o -> session_data h = Some (AttrM (own o) (proto o)).
Proof.
  unfold session_M. destruct (session_data h) as [[]|]; simpl; try discriminate.
  by intros [= <-].
Qed.

Lemma attr_M_AttrM o : attr_M (AttrM (own o) (proto o)) = Some o.
Proof. by destruct o. Qed.

Lemma session_M_set_session_M h o o0 :
  session_M h = Some o0 -> session_M (set_session_M o h) = Some o.
Proof.
  intros H%session_M_data. unfold session_M.
  rewrite (session_data_set_session_M _ _ _ H). apply attr_M_AttrM.
Qed.

Lemma getValue_session_M h o key type :
  session_M h = Some o -> getValue h key type = read_property o key type.
Proof.
  intros H%session_M_data. unfold getValue. by rewrite H, attr_M_AttrM.
Qed.

Lemma getValue_not_loaded h key type :
  session h = None -> getValue h key type = Normal (Value JsUndefined).
Proof. unfold getValue, session_data. by intros ->. Qed.

(** *** Reads *)

Lemma is_tag_cases type :
  is_tag type = true ->
  String.eqb type "__proto__" = false /\ JS.is_function_name type = false
  /\ String.eqb type "caller" = false /\ String.eqb type "arguments" = false
  /\ String.eqb type "name" = false.
Proof.
  unfold is_tag, tags. cbn [existsb]. rewrite !orb_true_iff.
  intros H. repeat destruct H as [H|H]; try discriminate;
    apply String.eqb_eq in H; subst type; by vm_compute.
Qed.

(** For a type tag, the second read gives the own property or nothing. *)
Lemma get_member_tag x type :
  is_tag type = true ->
  get_member x type =
  Normal (Value match x with
                | FoundAttribute av => attr_get av type
                | _ => JsUndefined
                end).
Proof.
  intros Ht. destruct (is_tag_cases type Ht) as (H1 & H2 & H3 & H4 & H5).
  destruct x as [av| | | |]; simpl; rewrite ?H1, ?H2, ?H3, ?H4, ?H5, ?Ht; try reflexivity.
  unfold attr_get. by destruct (attr_own av type).
Qed.

(** On an object a literal makes, [o[key]?.[tag]] is the tag of the own
    property [key]. *)
Lemma read_property_plain m key type :
  is_tag type = true ->
  read_property (plain m) key type =
  Normal (Value match m !! key with
                | Some av => attr_get av type
                | None => JsUndefined
                end).
Proof.
  intros Ht. unfold read_property. rewrite (get_member_tag _ _ Ht).
  unfold get_property, plain; simpl. destruct (m !! key); [reflexivity|].
  unfold Object_prototype_get.
  destruct (String.eqb key "__proto__"); [reflexivity|].
  by destruct (JS.is_function_name key).
Qed.

(** After [o[key] = { S: value }], [o[key]?.S] is [value], whatever [key]
    is. *)
Lemma read_set_property o key value :
  read_property (set_property o key value) key "S" = Normal (Value (JsString value)).
Proof.
  unfold read_property, set_property, get_property.
  destruct (own o !! key) eqn:Ho; simpl.
  - by rewrite lookup_insert_eq.
  - destruct (String.eqb_spec key "__proto__") as [->|Hne]; simpl.
    + by rewrite Ho.
    + by rewrite lookup_insert_eq.
Qed.

(** Where the assignment adds or replaces an own property, every other key
    reads as before. *)
Lemma read_set_property_other o key value key' type :
  key' <> key ->
  (key = "__proto__" -> own o !! key <> None) ->
  read_property (set_property o key value) key' type = read_property o key' type.
Proof.
  intros Hne Hown. unfold read_property, set_property, get_property.
  destruct (own o !! key) eqn:Ho; simpl.
  - by rewrite lookup_insert_ne.
  - destruct (String.eqb_spec key "__proto__") as [->|Hp]; simpl.
    + by destruct Hown.
    + by rewrite lookup_insert_ne.
Qed.

(** An own property reads the same whatever the prototype is. *)
Lemma read_property_own o key type av :
  own o !! key = Some av ->
  read_property o key type = get_member (FoundAttribute av) type.
Proof. intros H. unfold read_property, get_property. by rewrite H. Qed.

(** A handle built from a cookie header without a usable session value has
    no key and nothing cached. *)
Lemma constructor_no_key cookieString options :
  truthy (getSessionId cookieString) = false ->
  no_key (constructor cookieString options)
  /\ session (constructor cookieString options) = None.
Proof.
  intros H. unfold no_key, constructor; simpl. by rewrite H.
Qed.

(** ** Failing updates *)

(** C2. A handle that has a key but no cached attribute mapping (nothing
    was ever loaded on it): [updateSession] sends its [UpdateItem] command
    and then throws, whether the client resolves or rejects; when the
    client resolves, what is thrown is the error of the cache step. The
    handle is left as it was. *)
Theorem updateSession_without_cache_throws h w m key :
  has_key h key ->
  session_M h = None ->
  let command :=
    UpdateItemCommand SESSION_TABLE key (expiry (getTime (dates w)) (ttl h)) m in
  exists e w',
    updateSession m (h, w) = (Throw e, (h, w'))
    /\ calls w' = calls w ++ [command]
    /\ (forall out db', send command (db w) = (Normal out, db') ->
        e = Error "Session had no data before, was this a valid session?").
Proof.
  intros Hk Hm command. rewrite (updateSession_has_key _ _ _ _ Hk), Hm.
  cbv zeta. fold command. destruct (send command (db w)) as [[out|e] db'] eqn:Hs.
  - eexists _, _. split; [reflexivity|]. split; [reflexivity|]. intros; reflexivity.
  - eexists _, _. split; [reflexivity|]. split; [reflexivity|]. intros; discriminate.
Qed.

Lemma setValue_no_key h w key value :
  no_key h -> session h = None ->
  setValue key value (h, w) =
  (Throw (TypeError "Cannot read properties of undefined (reading 'M')"), (h, w)).
Proof.
  intros Hk Hs. rewrite setValue_eq. unfold session_data. rewrite Hs.
  rewrite (init_no_key _ _ Hk). unfold session_data. by rewrite Hs.
Qed.

(** Without a key and without a create, nothing a caller does changes the
    handle or reaches the store. *)
Lemma run_calls_no_key cs h w :
  no_key h -> session h = None ->
  forallb (fun c => negb (is_create c)) cs = true ->
  run_calls cs (h, w) = (h, w).
Proof.
  intros Hk Hs. induction cs as [|c cs IH]; simpl; [done|].
  intros [Hc Hcs]%andb_prop. destruct c; simpl in *; try discriminate.
  - rewrite (init_no_key _ _ Hk). by apply IH.
  - rewrite (updateSession_no_key _ _ _ Hk). by apply IH.
  - rewrite (setValue_no_key _ _ _ _ Hk Hs). by apply IH.
Qed.

(** C3. On a handle constructed from a cookie header that gives no session
    id (empty header, no session cookie, empty value), [updateSession] and
    [setValue] throw and leave the handle and the world, hence the list of
    commands sent, exactly as they were; and so it stays after any calls
    other than [createSession]. *)
Theorem no_session_id_writes_fail cookieString options (w : World DB) m key value :
  truthy (getSessionId cookieString) = false ->
  let h := constructor cookieString options in
  (exists e, updateSession m (h, w) = (Throw e, (h, w)))
  /\ (exists e, setValue key value (h, w) = (Throw e, (h, w)))
  /\ calls (snd (snd (updateSession m (h, w)))) = calls w
  /\ calls (snd (snd (setValue key value (h, w)))) = calls w
  /\ (forall cs, forallb (fun c => negb (is_create c)) cs = true ->
      run_calls cs (h, w) = (h, w)).
Proof.
  intros H h. destruct (constructor_no_key cookieString options H) as [Hk Hs].
  fold h in Hk, Hs.
  rewrite (setValue_no_key _ _ _ _ Hk Hs), (updateSession_no_key _ _ _ Hk). simpl.
  repeat split; eauto. intros cs Hcs. by apply run_calls_no_key.
Qed.

(** ** Successful updates *)

(** C6. When [updateSession o] completes normally, the cached mapping of
    the handle is [o]: [getValue], which is a function of the handle alone,
    answers every key and type by reading [o], and for an [o] written as a
    literal and a type tag of DynamoDB that is the tag of the attribute [o]
    holds at the key, [undefined] when it holds none. *)
Theorem updateSession_replaces_cache h w o h' w' :
  updateSession o (h, w) = (Normal tt, (h', w')) ->
  session_M h' = Some o
  /\ (forall key type, getValue h' key type = read_property o key type)
  /\ (forall m, o = plain m -> forall key type, is_tag type = true ->
        getValue h' key type =
        Normal (Value match m !! key with
                      | Some av => attr_get av type
                      | None => JsUndefined
                      end)).
Proof.
  intros H.
  assert (Hm : session_M h' = Some o).
  { destruct (sessionHash h) as [key|] eqn:Hk.
    - destruct (String.eqb_spec key "") as [->|Hne].
      + rewrite updateSession_no_key in H by (unfold no_key; by rewrite Hk). discriminate.
      + rewrite (updateSession_has_key _ _ _ key) in H by done. cbv zeta in H.
        destruct (send _ _) as [[out|e] db']; [|discriminate].
        destruct (session_M h) eqn:Hm; [|discriminate].
        injection H as <- <-. by eapply session_M_set_session_M.
    - rewrite updateSession_no_key in H by (unfold no_key; by rewrite Hk). discriminate. }
  split; [exact Hm|]. split.
  - intros. by apply getValue_session_M.
  - intros m -> key type Ht. rewrite (getValue_session_M _ _ _ _ Hm).
    by apply read_property_plain.
Qed.

(** A loaded handle with a key and a client that resolves: the update does
    complete normally. *)
Lemma updateSession_loaded_succeeds h w o key o0 out db' :
  has_key h key ->
  session_M h = Some o0 ->
  send (UpdateItemCommand SESSION_TABLE key (expiry (getTime (dates w)) (ttl h)) o) (db w)
    = (Normal out, db') ->
  exists w', updateSession o (h, w) = (Normal tt, (set_session_M o h, w')).
Proof.
  intros Hk Hm Hs. rewrite (updateSession_has_key _ _ _ _ Hk). cbv zeta.
  rewrite Hs, Hm. eauto.
Qed.

(** ** [setValue] on a loaded handle *)

Lemma setValue_loaded h w key value o :
  session_M h = Some o ->
  setValue key value (h, w) =
  updateSession (set_property o key value) (set_session_M (set_property o key value) h, w).
Proof.
  intros H%session_M_data. rewrite setValue_eq, H. simpl.
  rewrite H. cbn [attr_M]. by destruct o.
Qed.

(** X12. On a loaded handle (a key and a cached mapping [o]), [setValue]
    sends exactly one command, the [UpdateItem] carrying [o] after the assignment
    [o[key] = { S: value }]; afterwards [getValue key] is [value]. Where
    the assignment makes an own property, that is for every [key] but a
    [__proto__] that [o] does not hold itself, the object sent has [key]
    set to [{ S: value }] among its own properties and every other key
    reads as before. The call completes normally exactly when the client
    resolves. *)
Theorem setValue_merges h w key value o hkey :
  has_key h hkey ->
  session_M h = Some o ->
  let command :=
    UpdateItemCommand SESSION_TABLE hkey (expiry (getTime (dates w)) (ttl h))
      (set_property o key value) in
  exists r h' w',
    setValue key value (h, w) = (r, (h', w'))
    /\ calls w' = calls w ++ [command]
    /\ getValue h' key "S" = Normal (Value (JsString value))
    /\ ((key = "__proto__" -> own o !! key <> None) ->
        own (set_property o key value) = <[key := AttrS value]> (own o)
        /\ forall key' type, key' <> key -> getValue h' key' type = getValue h key' type)
    /\ (r = Normal tt <-> exists out db', send command (db w) = (Normal out, db')).
Proof.
  intros Hk Hm command. rewrite (setValue_loaded _ _ _ _ _ Hm).
  set (o' := set_property o key value) in *.
  assert (Hm1 : session_M (set_session_M o' h) = Some o')
    by (by eapply session_M_set_session_M).
  rewrite (updateSession_has_key _ _ _ hkey) by done. cbv zeta.
  rewrite Hm1. change (ttl (set_session_M o' h)) with (ttl h). fold command.
  assert (Hget : forall h', session_M h' = Some o' ->
     getValue h' key "S" = Normal (Value (JsString value))
     /\ ((key = "__proto__" -> own o !! key <> None) ->
         own o' = <[key := AttrS value]> (own o)
         /\ forall key' type, key' <> key -> getValue h' key' type = getValue h key' type)).
  { intros h' Hh'. split.
    - rewrite (getValue_session_M _ _ _ _ Hh'). apply read_set_property.
    - intros Hown. split.
      + unfold o', set_property. destruct (own o !! key) eqn:Ho; [reflexivity|].
        destruct (String.eqb_spec key "__proto__") as [->|Hp]; [by destruct Hown | reflexivity].
      + intros key' type Hne. rewrite (getValue_session_M _ _ _ _ Hh').
        rewrite (getValue_session_M _ _ _ _ Hm). by apply read_set_property_other. }
  destruct (send command (db w)) as [[out|e] db'] eqn:Hs.
  - eexists _, _, _. split; [reflexivity|]. split; [reflexivity|].
    destruct (Hget (set_session_M o' (set_session_M o' h))) as [H1 H2].
    { by eapply session_M_set_session_M. }
    repeat split; eauto; by apply H2.
  - eexists _, _, _. split; [reflexivity|]. split; [reflexivity|].
    destruct (Hget _ Hm1) as [H1 H2].
    split; [exact H1|]. split; [exact H2|].
    split; [discriminate|]. intros (out & db'' & Heq). discriminate.
Qed.

(** C10. On a loaded handle, when the client rejects the [UpdateItem] sent
    by [setValue], the call throws what the client gave, the store is in
    the state the rejected call left it in, and the cached mapping has
    already gone through the assignment [M[key] = { S: value }]:
    [getValue key] returns [value], whatever [key] is. *)
Theorem setValue_rejected_keeps_assignment h w key value o hkey e db' :
  has_key h hkey ->
  session_M h = Some o ->
  send (UpdateItemCommand SESSION_TABLE hkey (expiry (getTime (dates w)) (ttl h))
          (set_property o key value)) (db w) = (Throw e, db') ->
  exists h' w',
    setValue key value (h, w) = (Throw e, (h', w'))
    /\ calls w' = calls w ++
         [UpdateItemCommand SESSION_TABLE hkey (expiry (getTime (dates w)) (ttl h))
            (set_property o key value)]
    /\ db w' = db'
    /\ session_M h' = Some (set_property o key value)
    /\ getValue h' key "S" = Normal (Value (JsString value)).
Proof.
  intros Hk Hm Hs. rewrite (setValue_loaded _ _ _ _ _ Hm).
  set (o' := set_property o key value) in *.
  assert (Hm1 : session_M (set_session_M o' h) = Some o')
    by (by eapply session_M_set_session_M).
  rewrite (updateSession_has_key _ _ _ hkey) by done. cbv zeta.
  change (ttl (set_session_M o' h)) with (ttl h). rewrite Hs.
  eexists _, _. split; [reflexivity|]. split; [reflexivity|]. split; [reflexivity|].
  split; [exact Hm1|].
  rewrite (getValue_session_M _ _ _ _ Hm1). apply read_set_property.
Qed.

(** ** [createSession] *)


(** ** Commands sent by any sequence of calls *)

(** [w'] is [w] with more commands sent, each of them satisfying [P]. *)
Definition extends (P : Command -> Prop) (w w' : World DB) : Prop :=
  exists new, calls w' = calls w ++ new /\ Forall P new.

Lemma extends_refl P w : extends P w w.
Proof. exists []. by rewrite app_nil_r. Qed.

Lemma extends_sent P w w0 command db' :
  extends P w w0 -> P command -> extends P w (sent command db' w0).
Proof.
  intros (new & Hc & Hn) Hp. exists (new ++ [command]). simpl.
  rewrite Hc, app_assoc. split; [reflexivity|].
  apply Forall_app. split; [exact Hn|]. by constructor.
Qed.

Lemma extends_ticked P w w0 : extends P w w0 -> extends P w (ticked w0).
Proof. exact id. Qed.

Lemma extends_drawn P w w0 : extends P w w0 -> extends P w (drawn w0).
Proof. exact id. Qed.

Lemma extends_trans P w0 w1 w2 : extends P w0 w1 -> extends P w1 w2 -> extends P w0 w2.
Proof.
  intros (n1 & H1 & F1) (n2 & H2 & F2). exists (n1 ++ n2).
  rewrite H2, H1, app_assoc. split; [reflexivity|]. by apply Forall_app.
Qed.

Lemma extends_weaken (P P' : Command -> Prop) w w' :
  (forall c, P c -> P' c) -> extends P w w' -> extends P' w w'.
Proof.
  intros HP (new & Hc & Hn). exists new. split; [exact Hc|].
  clear Hc. induction Hn as [|c l Hc Hl IH]; constructor; [apply HP, Hc | exact IH].
Qed.

(** What a command sent during a call on [(h, w)] looks like: its key is
    the key of the handle before or after the call, and a write carries the
    expiry computed from the clock read at this call and the handle's time
    to live. *)
Definition command_ok (h h' : Session) (w : World DB) (c : Command) : Prop :=
  (Some (command_key c) = sessionHash h \/ Some (command_key c) = sessionHash h')
  /\ (is_write c = true ->
      command_ttl c = Some (expiry (getTime (dates w)) (ttl h))).

Definition call_ok (st st' : Session * World DB) : Prop :=
  ttl (fst st') = ttl (fst st)
  /\ (sessionHash (fst st') = sessionHash (fst st)
      \/ exists n, sessionHash (fst st') = Some (hash (randomUUID n)))
  /\ extends (command_ok (fst st) (fst st') (snd st)) (snd st) (snd st').

Lemma key_cases h : no_key h \/ exists key, has_key h key.
Proof.
  unfold no_key, has_key. destruct (sessionHash h) as [key|]; [|by left].
  destruct (String.eqb_spec key ""); eauto.
Qed.

Ltac extends_tac :=
  repeat lazymatch goal with
    | |- extends _ _ (sent _ _ _) => apply extends_sent
    | |- extends _ _ (ticked _) => apply extends_ticked
    | |- extends _ _ (drawn _) => apply extends_drawn
    | |- extends _ ?w ?w => apply extends_refl
    end.

Lemma init_ok h w :
  call_ok (h, w) (snd (init (h, w)))
  /\ dates (snd (snd (init (h, w)))) = dates w
  /\ sessionHash (fst (snd (init (h, w)))) = sessionHash h
  /\ extends (fun c => is_write c = false) w (snd (snd (init (h, w)))).
Proof.
  destruct (key_cases h) as [Hn|[key Hk]].
  - rewrite (init_no_key _ _ Hn). unfold call_ok; simpl.
    repeat split; eauto using extends_refl.
  - rewrite (init_has_key _ _ _ Hk). cbv zeta. destruct Hk as [Hk _].
    destruct (send _ _) as [[out|e] db']; [destruct (output_data out)|];
      unfold call_ok, command_ok; simpl;
      (repeat split; eauto; extends_tac; simpl; eauto; try discriminate).
    all: split; [eauto | discriminate].
Qed.

Lemma updateSession_ok h w m : call_ok (h, w) (snd (updateSession m (h, w))).
Proof.
  destruct (key_cases h) as [Hn|[key Hk]].
  - rewrite (updateSession_no_key _ _ _ Hn). unfold call_ok; simpl.
    repeat split; eauto using extends_refl.
  - rewrite (updateSession_has_key _ _ _ _ Hk). cbv zeta. destruct Hk as [Hk _].
    destruct (send _ _) as [[out|e] db']; [destruct (session_M h)|];
      unfold call_ok, command_ok; simpl;
      (repeat split; eauto; extends_tac; simpl; eauto).
Qed.

Lemma createSession_ok h w m : call_ok (h, w) (snd (createSession m (h, w))).
Proof.
  rewrite createSession_eq. cbv zeta.
  destruct (send _ _) as [[out|e] db'];
    unfold call_ok, command_ok; simpl;
    (repeat split; eauto; extends_tac; simpl; eauto).
Qed.

Lemma setValue_ok h w key value : call_ok (h, w) (snd (setValue key value (h, w))).
Proof.
  rewrite setValue_eq.
  assert (Hrefl : call_ok (h, w) (h, w)).
  { unfold call_ok; simpl. repeat split; eauto using extends_refl. }
  assert (Hstep : forall h1 w1 m,
    ttl h1 = ttl h -> sessionHash h1 = sessionHash h -> dates w1 = dates w ->
    extends (fun c => is_write c = false /\ Some (command_key c) = sessionHash h) w w1 ->
    call_ok (h, w) (snd (updateSession m (set_session_M m h1, w1)))).
  { intros h1 w1 m Ht Hh Hd Hext.
    destruct (updateSession_ok (set_session_M m h1) w1 m) as (Ht' & Hh' & Hext').
    simpl in *. unfold call_ok; simpl. split; [congruence|]. split.
    - destruct Hh' as [Hh'|Hh']; [left; congruence | by right].
    - eapply extends_trans.
      + eapply extends_weaken; [|exact Hext]. intros c [Hw Hc].
        split; [by left | rewrite Hw; discriminate].
      + eapply extends_weaken; [|exact Hext']. intros c [Hc Hw].
        unfold command_ok. rewrite <- Hh, <- Ht, <- Hd. split; [|exact Hw].
        destruct Hc as [Hc|Hc]; [by left | by right]. }
  destruct (session_data h) as [data|] eqn:Hd.
  - cbv iota beta. rewrite Hd.
    destruct (attr_M data) as [m|]; [|exact Hrefl].
    apply Hstep; eauto. exists []. by rewrite app_nil_r.
  - destruct (init_ok h w) as (Hi & Hdates & Hhash & Hnw).
    destruct (init (h, w)) as [[r|e] [h1 w1]]; simpl in *; [|exact Hi].
    destruct (session_data h1) as [data|]; [|exact Hi].
    destruct (attr_M data) as [m|]; [|exact Hi].
    destruct Hi as (Ht & _ & Hext). simpl in *.
    apply Hstep; eauto.
    destruct Hext as (new & Hc & Hf). destruct Hnw as (new' & Hc' & Hf').
    rewrite Hc in Hc'. apply app_inv_head in Hc'. subst new'.
    exists new. split; [exact Hc|].
    clear Hc. induction Hf as [|c l [Hk _] Hl IH]; [constructor|].
    inversion Hf' as [|? ? Hw Hl']; subst. constructor; [|by apply IH].
    split; [exact Hw|]. rewrite Hhash in Hk. by destruct Hk.
Qed.

Lemma run_call_ok c st : call_ok st (run_call c st).
Proof.
  destruct st as [h w]. destruct c; simpl.
  - apply init_ok.
  - apply updateSession_ok.
  - apply setValue_ok.
  - apply createSession_ok.
Qed.

(** *** Keys *)

Lemma digest_length msg : length (SHA256.digest msg) = 32%nat.
Proof. reflexivity. Qed.

Lemma base64_length_32 l :
  length l = 32%nat -> String.length (Base64.encode l) = 44%nat.
Proof.
  intros H. do 32 (destruct l as [|? l]; [simpl in H; discriminate H|]).
  destruct l; [reflexivity | simpl in H; discriminate H].
Qed.

Lemma hash_length s : String.length (hash s) = 44%nat.
Proof. apply base64_length_32, digest_length. Qed.

Lemma hash_differs t : String.length t <> 44%nat -> hash t <> t.
Proof. intros H Heq. apply H. rewrite <- Heq. apply hash_length. Qed.

(** Every key a handle holds is the hash of one of its tokens. *)
Definition key_inv (cookieString : string) (h : Session) : Prop :=
  forall key, sessionHash h = Some key ->
    exists t, token_of cookieString t /\ key = hash t.

Definition derived_key (cookieString : string) (c : Command) : Prop :=
  exists t, token_of cookieString t
            /\ command_key c = hash t
            /\ (String.length t <> 44%nat -> command_key c <> t).

Lemma constructor_key_inv cookieString options :
  key_inv cookieString (constructor cookieString options).
Proof.
  intros key. unfold constructor; simpl.
  destruct (truthy (getSessionId cookieString)) eqn:Ht; [|discriminate].
  intros [= <-]. destruct (getSessionId_range cookieString) as [H|[H|(s & _ & _ & H)]];
    rewrite H in Ht |- *; try discriminate.
  exists s. split; [by left | reflexivity].
Qed.

Lemma run_calls_keys cookieString cs : forall h w,
  key_inv cookieString h ->
  extends (derived_key cookieString) w (snd (run_calls cs (h, w))).
Proof.
  induction cs as [|c cs IH]; intros h w Hinv; simpl; [apply extends_refl|].
  destruct (run_call_ok c (h, w)) as (_ & Hh & Hext).
  destruct (run_call c (h, w)) as [h1 w1]; simpl in *.
  assert (Hinv1 : key_inv cookieString h1).
  { destruct Hh as [Hh|[n Hh]]; intros key Hk.
    - apply Hinv. congruence.
    - rewrite Hh in Hk. injection Hk as <-. exists (randomUUID n).
      split; [right; eauto | reflexivity]. }
  eapply extends_trans; [|by apply IH].
  eapply extends_weaken; [|exact Hext]. intros cmd [[Hk|Hk] _].
  - destruct (Hinv _ (eq_sym Hk)) as (t & Ht & Heq). exists t.
    repeat split; [exact Ht | exact Heq |]. rewrite Heq. apply hash_differs.
  - destruct (Hinv1 _ (eq_sym Hk)) as (t & Ht & Heq). exists t.
    repeat split; [exact Ht | exact Heq |]. rewrite Heq. apply hash_differs.
Qed.

(** X13. Whatever methods are called on a handle after its construction,
    every command sent to the store ([GetItem] of [init], [PutItem] of
    [createSession], [UpdateItem] of [updateSession] and [setValue]) has as
    key [hash t], the base64 form of the SHA-256 digest of a token [t] of
    the handle: the one of its cookie header or a generated UUID. The key
    has 44 characters, so it is not the token itself unless the token has
    44 characters too (a UUID has 36). *)
Theorem store_keys_are_hashes cookieString options w cs :
  extends
    (fun c => derived_key cookieString c /\ String.length (command_key c) = 44%nat)
    w (snd (run_calls cs (constructor cookieString options, w))).
Proof.
  eapply extends_weaken; [|apply run_calls_keys, constructor_key_inv].
  intros c Hc. split; [exact Hc|].
  destruct Hc as (t & _ & -> & _). apply hash_length.
Qed.

(** *** Expiry *)

Lemma run_calls_ttl cs : forall st, ttl (fst (run_calls cs st)) = ttl (fst st).
Proof.
  induction cs as [|c cs IH]; intros st; simpl; [reflexivity|].
  rewrite IH. by destruct (run_call_ok c st) as (Ht & _).
Qed.

(** When the time to live in seconds, as the multiplication gives it, is a
    whole number, the expiry is the whole seconds of the clock plus that
    number: for a clock within the range of [Date] and a sum below
    [2^43], where a double still tells thousandths apart. *)
Lemma expiry_whole_seconds (ms : Z) (minutes : Number.number) (s : Q) (z : Z) :
  (Z.abs ms <= 8640000000000000)%Z ->
  Number.mul minutes (Number.Finite 60) = Number.Finite s -> (s == inject_Z z)%Q ->
  (Z.abs (ms / 1000 + z) < 2 ^ 43 - 1)%Z ->
  expiry ms minutes = Number.Finite (inject_Z (ms / 1000 + z)).
Proof.
  intros Hms Hmul Hs Hsum. unfold expiry. rewrite Hmul.
  destruct (Rounding.of_Z_exact ms) as (y0 & -> & Hy0); [lia|].
  destruct (Rounding.div_1000_between y0 ms Hy0 Hms) as (ya & -> & Ha1 & Ha2).
  cbn [Number.add].
  destruct (Rounding.round_between 10 ((ms / 1000 + z) * 1024)
              ((ms / 1000 + z) * 1024 + 1023) (ya + s)%Q) as (y & Hy & H1 & H2); try lia.
  - rewrite Hs, inject_Z_mult, inject_Z_plus. change (2 ^ (- (10)))%Q with (1 # 1024).
    change (inject_Z 1024) with 1024%Q. lra.
  - rewrite Hs, inject_Z_plus, inject_Z_mult, inject_Z_plus.
    change (2 ^ (- (10)))%Q with (1 # 1024).
    change (inject_Z 1024) with 1024%Q. change (inject_Z 1023) with 1023%Q. lra.
  - rewrite Hy. cbn [Number.floor]. do 2 f_equal.
    rewrite inject_Z_mult, inject_Z_plus in H1.
    rewrite inject_Z_plus, inject_Z_mult, inject_Z_plus in H2.
    change (2 ^ (- (10)))%Q with (1 # 1024) in H1, H2.
    change (inject_Z 1024) with 1024%Q in H1, H2.
    change (inject_Z 1023) with 1023%Q in H2.
    assert (Hlo : (ms / 1000 + z <= Qfloor y)%Z).
    { rewrite <- (Qfloor_Z (ms / 1000 + z)). apply Qfloor_resp_le.
      rewrite inject_Z_plus. lra. }
    assert (Hhi : (Qfloor y < ms / 1000 + z + 1)%Z).
    { rewrite Zlt_Qlt. pose proof (Qfloor_le y).
      rewrite !inject_Z_plus. change (inject_Z 1) with 1%Q. lra. }
    lia.
Qed.

(** A whole number of minutes. *)
Lemma expiry_whole_minutes (ms : Z) (x : Q) (n : Z) :
  (Z.abs ms <= 8640000000000000)%Z -> (x == inject_Z n)%Q -> (Z.abs n <= 2 ^ 31)%Z ->
  expiry ms (Number.Finite x) = Number.Finite (inject_Z (ms / 1000 + n * 60)).
Proof.
  intros Hms Hx Hn.
  destruct (Rounding.mul_60_whole x n Hx) as (s & Hs & Heq); [lia|].
  apply (expiry_whole_seconds ms _ s (n * 60) Hms Hs Heq).
  assert (Hq : (Z.abs (ms / 1000) <= 8640000000000)%Z).
  { apply Z.abs_le. split.
    - apply Z.div_le_lower_bound; lia.
    - apply Z.div_le_upper_bound; lia. }
  lia.
Qed.

(** C5, as the code has it. In every state a handle reaches after its
    construction: its time to live is the configured one (15 when no option
    is given); every write command sent by the next call carries as expiry
    [Math.floor(now / 1000 + ttl * 60)], computed in doubles as the code
    does, the clock being read during that call; [createSession] does send
    such a [PutItem]; [init] sends no write. That expiry is
    floor(clock in seconds) + time to live * 60 whenever the latter, as
    computed, is a whole number, in particular for every whole number of
    minutes (clock within the range of [Date], time to live up to [2^31]
    minutes). *)
Theorem writes_carry_expiry cookieString options w0 cs :
  let T := configured_ttl options in
  let st := run_calls cs (constructor cookieString options, w0) in
  let now := getTime (dates (snd st)) in
  ttl (fst st) = T
  /\ (options = None -> T = Number.Finite 15)
  /\ (forall c, extends (fun cmd => is_write cmd = true ->
                           command_ttl cmd = Some (expiry now T))
                  (snd st) (snd (run_call c st)))
  /\ (forall o, exists key,
        calls (snd (snd (createSession o st))) =
        calls (snd st) ++ [PutItemCommand SESSION_TABLE key o (expiry now T)])
  /\ extends (fun cmd => is_write cmd = false) (snd st) (snd (snd (init st)))
  /\ expiry now T =
     Number.floor (Number.add (Number.div (Number.of_Z now) 1000)
                              (Number.mul T (Number.Finite 60)))
  /\ (forall (s : Q) (z : Z),
        (Z.abs now <= 8640000000000000)%Z ->
        Number.mul T (Number.Finite 60) = Number.Finite s -> (s == inject_Z z)%Q ->
        (Z.abs (now / 1000 + z) < 2 ^ 43 - 1)%Z ->
        expiry now T = Number.Finite (inject_Z (now / 1000 + z)))
  /\ (forall (x : Q) (n : Z),
        T = Number.Finite x -> (x == inject_Z n)%Q ->
        (Z.abs now <= 8640000000000000)%Z -> (Z.abs n <= 2 ^ 31)%Z ->
        expiry now T = Number.Finite (inject_Z (now / 1000 + n * 60))).
Proof.
  intros T st now.
  assert (Ht : ttl (fst st) = T) by (unfold st; by rewrite run_calls_ttl).
  split; [exact Ht|]. split; [by intros ->|]. split; [|split; [|split; [|split; [|split]]]].
  - intros c. destruct (run_call_ok c st) as (_ & _ & Hext).
    eapply extends_weaken; [|exact Hext]. intros cmd [_ Hw]. by rewrite <- Ht.
  - intros o. destruct st as [h w]. rewrite createSession_eq. cbv zeta.
    simpl in Ht. subst now. rewrite <- Ht.
    destruct (send _ _) as [[out|e] db']; eexists; reflexivity.
  - destruct st as [h w]. apply init_ok.
  - reflexivity.
  - intros s z Hnow Hmul Hs Hsum. by apply (expiry_whole_seconds now T s z).
  - intros x n -> Hx Hnow Hn. by apply expiry_whole_minutes.
Qed.

(** ** More on each method *)

(** *** [init] *)

(** X1. On a handle with a key, when the client resolves with an item that
    has a [data] attribute, [init] returns that output and keeps it as the
    handle's [session], whatever was cached before; id, key and time to
    live stay; exactly one [GetItem] under the handle's key was sent, the
    clock and the generator were not used; and when [data] is a map,
    [getValue] answers by reading it. *)
Theorem init_caches_record h w key out db' data :
  has_key h key ->
  send (GetItemCommand SESSION_TABLE key) (db w) = (Normal out, db') ->
  output_data out = Some data ->
  exists h' w',
    init (h, w) = (Normal (Some out), (h', w'))
    /\ session h' = Some out
    /\ sessionId h' = sessionId h /\ sessionHash h' = sessionHash h /\ ttl h' = ttl h
    /\ calls w' = calls w ++ [GetItemCommand SESSION_TABLE key]
    /\ db w' = db' /\ dates w' = dates w /\ draws w' = draws w
    /\ (forall o, attr_M data = Some o -> forall k type,
          getValue h' k type = read_property o k type).
Proof.
  intros Hk Hs Hd. rewrite (init_has_key _ _ _ Hk). cbv zeta. rewrite Hs, Hd.
  eexists _, _. split; [reflexivity|]. repeat split.
  intros o Ho k type. apply getValue_session_M.
  unfold session_M, session_data. simpl. by rewrite Hd.
Qed.

(** X2. On a handle with a key, when the client resolves without an item,
    or with an item that has no [data] attribute, [init] returns [false];
    when the client rejects, [init] throws what the client gave. In both
    cases the handle is exactly as before (a record cached earlier stays)
    and one [GetItem] was sent. *)
Theorem init_miss_keeps_handle h w key r db' :
  has_key h key ->
  send (GetItemCommand SESSION_TABLE key) (db w) = (r, db') ->
  match r with
  | Normal out => output_data out = None
  | Throw _ => True
  end ->
  exists w',
    init (h, w) =
    (match r with
     | Normal _ => Normal None
     | Throw e => Throw e
     end, (h, w'))
    /\ calls w' = calls w ++ [GetItemCommand SESSION_TABLE key]
    /\ db w' = db'.
Proof.
  intros Hk Hs Hr. rewrite (init_has_key _ _ _ Hk). cbv zeta. rewrite Hs.
  destruct r as [out|e]; [rewrite Hr|]; eexists; repeat split.
Qed.

(** *** [isLoggedIn] and [getValue] *)

Lemma isLoggedIn_session_M h o :
  session_M h = Some o ->
  isLoggedIn h = Normal (Value (JsBool match own o !! "loggedin" with
                                       | Some (AttrBOOL b) => b
                                       | _ => false
                                       end)).
Proof.
  intros Hm. unfold isLoggedIn. rewrite (getValue_session_M _ _ _ _ Hm).
  unfold read_property, get_property.
  destruct (own o !! "loggedin") as [av|]; [by destruct av as [| |[]| |]|].
  by destruct (proto o).
Qed.

Lemma session_M_cases h :
  session_data h = None
  \/ (exists data, session_data h = Some data /\ attr_M data = None)
  \/ exists m, session_M h = Some m.
Proof.
  unfold session_M. destruct (session_data h) as [data|]; [|by left].
  right. destruct (attr_M data) as [m|] eqn:Hm; [right | left]; eauto.
Qed.

(** X3. [isLoggedIn] is [true] exactly when the cached mapping holds
    [loggedin: { BOOL: true }]; it is [false] when nothing is cached, when
    the attribute is missing, [{ BOOL: false }] or of another type; and it
    throws exactly when the cached record has a [data] that is not a map. *)
Theorem isLoggedIn_cases h :
  (isLoggedIn h = Normal (Value (JsBool true)) <->
   exists o, session_M h = Some o /\ own o !! "loggedin" = Some (AttrBOOL true))
  /\ (isLoggedIn h = Normal (Value (JsBool false)) <->
      session_data h = None
      \/ exists o, session_M h = Some o /\ own o !! "loggedin" <> Some (AttrBOOL true))
  /\ ((exists e, isLoggedIn h = Throw e) <->
      exists data, session_data h = Some data /\ attr_M data = None).
Proof.
  destruct (session_M_cases h) as [Hn|[(data & Hd & Ha)|(m & Hm)]].
  - assert (Hl : isLoggedIn h = Normal (Value (JsBool false))).
    { unfold isLoggedIn, getValue. by rewrite Hn. }
    assert (HM : session_M h = None) by (unfold session_M; by rewrite Hn).
    rewrite Hl. repeat split; try discriminate; eauto.
    + intros (m & Hm & _). congruence.
    + intros [e He]. discriminate.
    + intros (data & Hd & _). congruence.
  - assert (Hl : isLoggedIn h = Throw (TypeError "Cannot read properties of undefined")).
    { unfold isLoggedIn, getValue. by rewrite Hd, Ha. }
    assert (HM : session_M h = None) by (unfold session_M; by rewrite Hd).
    rewrite Hl. repeat split; try discriminate; eauto.
    + intros (m & Hm & _). congruence.
    + intros [Hn|(m & Hm & _)]; congruence.
  - rewrite (isLoggedIn_session_M _ _ Hm).
    pose proof (session_M_data _ _ Hm) as Hd.
    repeat split.
    + intros H. exists m. split; [done|].
      destruct (own m !! "loggedin") as [[]|]; try discriminate. by injection H as ->.
    + intros (m' & Hm' & Hl). rewrite Hm in Hm'. injection Hm' as <-. by rewrite Hl.
    + intros H. right. exists m. split; [done|]. intros Hl. rewrite Hl in H. discriminate.
    + intros [Hn|(m' & Hm' & Hl)]; [congruence|].
      rewrite Hm in Hm'. injection Hm' as <-.
      destruct (own m !! "loggedin") as [[| |[]| |]|]; try reflexivity. by destruct Hl.
    + intros [e He]. discriminate.
    + intros (data & Hd' & Ha). rewrite Hd in Hd'. injection Hd' as <-. discriminate.
Qed.

(** X4. A handle constructed from a cookie header that gives no session id
    reads as an absent session: [init] returns [false] and sends nothing,
    [isLoggedIn] is [false] and [getValue] is [undefined] for every key and
    type. *)
Theorem no_session_id_reads cookieString options (w : World DB) :
  truthy (getSessionId cookieString) = false ->
  let h := constructor cookieString options in
  init (h, w) = (Normal None, (h, w))
  /\ isLoggedIn h = Normal (Value (JsBool false))
  /\ forall key type, getValue h key type = Normal (Value JsUndefined).
Proof.
  intros H h. destruct (constructor_no_key cookieString options H) as [Hk Hs].
  fold h in Hk, Hs. split; [by apply init_no_key|].
  assert (Hg : forall key type, getValue h key type = Normal (Value JsUndefined))
    by (intros; by apply getValue_not_loaded).
  split; [|exact Hg]. unfold isLoggedIn. by rewrite Hg.
Qed.

(** X5. [init] takes any [data] attribute for a session, the accessors want
    a map: after a load of an item whose [data] is not a map, [getValue]
    and [isLoggedIn] throw, [setValue] throws without sending anything, and
    [updateSession] sends its command and then throws. *)
Theorem not_a_map_record h w key out db' data :
  has_key h key ->
  send (GetItemCommand SESSION_TABLE key) (db w) = (Normal out, db') ->
  output_data out = Some data ->
  attr_M data = None ->
  exists h' w',
    init (h, w) = (Normal (Some out), (h', w'))
    /\ (forall k type, exists e, getValue h' k type = Throw e)
    /\ (exists e, isLoggedIn h' = Throw e)
    /\ (forall w1 k v, exists e, setValue k v (h', w1) = (Throw e, (h', w1)))
    /\ (forall w1 m, exists e w2,
          updateSession m (h', w1) = (Throw e, (h', w2))
          /\ calls w2 = calls w1 ++
               [UpdateItemCommand SESSION_TABLE key (expiry (getTime (dates w1)) (ttl h)) m]).
Proof.
  intros Hk Hs Hd Ha. rewrite (init_has_key _ _ _ Hk). cbv zeta. rewrite Hs, Hd.
  set (h' := set_session (Some out) h).
  assert (Hd' : session_data h' = Some data) by (unfold session_data; simpl; exact Hd).
  assert (Hm' : session_M h' = None) by (unfold session_M; by rewrite Hd', Ha).
  assert (Hg : forall k type, getValue h' k type
                 = Throw (TypeError "Cannot read properties of undefined")).
  { intros. unfold getValue. by rewrite Hd', Ha. }
  eexists _, _. split; [reflexivity|]. repeat split.
  - intros. eexists. apply Hg.
  - eexists. unfold isLoggedIn. by rewrite Hg.
  - intros w1 k v. eexists. rewrite setValue_eq, Hd'. simpl. by rewrite Hd', Ha.
  - intros w1 m. rewrite (updateSession_has_key h' w1 m key) by exact Hk. cbv zeta.
    rewrite Hm'. change (ttl h') with (ttl h).
    destruct (send (UpdateItemCommand _ _ _ _) _) as [[o|e] d];
      eexists _, _; split; reflexivity.
Qed.

(** *** Rejected writes *)

Lemma getCookie_sessionId h h' : sessionId h' = sessionId h -> getCookie h' = getCookie h.
Proof. unfold getCookie. by intros ->. Qed.

(** X6. When the client rejects the [UpdateItem] of [updateSession], the
    call throws what the client gave and the handle, its cached mapping
    included, is exactly as before. *)
Theorem updateSession_rejected_keeps_handle h w m key e db' :
  has_key h key ->
  send (UpdateItemCommand SESSION_TABLE key (expiry (getTime (dates w)) (ttl h)) m) (db w)
    = (Throw e, db') ->
  exists w',
    updateSession m (h, w) = (Throw e, (h, w'))
    /\ calls w' = calls w ++
         [UpdateItemCommand SESSION_TABLE key (expiry (getTime (dates w)) (ttl h)) m]
    /\ db w' = db'.
Proof.
  intros Hk Hs. rewrite (updateSession_has_key _ _ _ _ Hk). cbv zeta. rewrite Hs.
  eexists. repeat split.
Qed.

(** X7. When the client rejects the [PutItem] of [createSession], the call
    throws what the client gave; the handle keeps its session id, hence its
    cookie, and its cached record, but its key is already the hash of the
    UUID drawn for the failed call, so later loads and updates go to that
    key. *)
Theorem createSession_rejected_moves_key h w m e db' :
  send (PutItemCommand SESSION_TABLE (hash (randomUUID (draws w))) m
          (expiry (getTime (dates w)) (ttl h))) (db w) = (Throw e, db') ->
  exists h' w',
    createSession m (h, w) = (Throw e, (h', w'))
    /\ sessionId h' = sessionId h
    /\ getCookie h' = getCookie h
    /\ session h' = session h
    /\ has_key h' (hash (randomUUID (draws w)))
    /\ draws w' = S (draws w)
    /\ calls w' = calls w ++
         [PutItemCommand SESSION_TABLE (hash (randomUUID (draws w))) m
            (expiry (getTime (dates w)) (ttl h))].
Proof.
  intros Hs. rewrite createSession_eq. cbv zeta. rewrite Hs.
  eexists _, _. split; [reflexivity|]. repeat split.
  intros Heq. pose proof (hash_length (randomUUID (draws w))) as Hl.
  rewrite Heq in Hl. discriminate.
Qed.

(** *** [setValue] on a handle that has nothing cached *)

(** X8. On a handle with a key and no cached record, [setValue] loads
    first: when the load finds a record whose [data] is the map [o], two
    commands are sent, the [GetItem] and then the [UpdateItem] carrying [o]
    after the assignment [o[key] = { S: value }], and afterwards [getValue]
    answers by reading that object. *)
Theorem setValue_loads_first h w key value hkey out db1 o :
  has_key h hkey ->
  session_data h = None ->
  send (GetItemCommand SESSION_TABLE hkey) (db w) = (Normal out, db1) ->
  output_data out = Some (AttrM (own o) (proto o)) ->
  exists r h' w',
    setValue key value (h, w) = (r, (h', w'))
    /\ calls w' = calls w ++
         [GetItemCommand SESSION_TABLE hkey;
          UpdateItemCommand SESSION_TABLE hkey (expiry (getTime (dates w)) (ttl h))
            (set_property o key value)]
    /\ (forall k type, getValue h' k type = read_property (set_property o key value) k type)
    /\ getValue h' key "S" = Normal (Value (JsString value)).
Proof.
  intros Hk Hn Hs Hd. rewrite setValue_eq, Hn.
  rewrite (init_has_key _ _ _ Hk). cbv zeta. rewrite Hs, Hd.
  set (h1 := set_session (Some out) h).
  assert (Hd1 : session_data h1 = Some (AttrM (own o) (proto o)))
    by (unfold session_data; simpl; exact Hd).
  rewrite Hd1, attr_M_AttrM. cbv iota.
  set (m' := set_property o key value).
  assert (Hm1 : session_M (set_session_M m' h1) = Some m').
  { eapply session_M_set_session_M. unfold session_M. by rewrite Hd1. }
  rewrite (updateSession_has_key _ _ _ hkey) by exact Hk. cbv zeta. rewrite Hm1.
  change (ttl (set_session_M m' h1)) with (ttl h).
  assert (Hall : forall h', session_M h' = Some m' ->
            (forall k type, getValue h' k type = read_property m' k type)
            /\ getValue h' key "S" = Normal (Value (JsString value))).
  { intros h' Hh'. split; [intros; by apply getValue_session_M|].
    rewrite (getValue_session_M _ _ _ _ Hh'). apply read_set_property. }
  destruct (send (UpdateItemCommand _ _ _ _) _) as [[o1|e] d];
    eexists _, _, _; (split; [reflexivity|]); (split; [simpl; by rewrite <- app_assoc|]);
    apply Hall; [|exact Hm1].
  by eapply session_M_set_session_M.
Qed.

(** X9. On a handle with a key and no cached record, when the load finds no
    record (or one without [data]), [setValue] throws a [TypeError]; only
    the [GetItem] was sent, nothing was written, and the handle is as
    before. *)
Theorem setValue_nothing_to_load h w key value hkey out db1 :
  has_key h hkey ->
  session_data h = None ->
  send (GetItemCommand SESSION_TABLE hkey) (db w) = (Normal out, db1) ->
  output_data out = None ->
  exists w',
    setValue key value (h, w) =
    (Throw (TypeError "Cannot read properties of undefined (reading 'M')"), (h, w'))
    /\ calls w' = calls w ++ [GetItemCommand SESSION_TABLE hkey]
    /\ db w' = db1.
Proof.
  intros Hk Hn Hs Hd. rewrite setValue_eq, Hn.
  rewrite (init_has_key _ _ _ Hk). cbv zeta. rewrite Hs, Hd, Hn.
  eexists. repeat split.
Qed.

(** X10. [setValue] stores strings only: on a loaded handle, after
    [setValue('loggedin', value)] the attribute is [{ S: value }] and
    [isLoggedIn] is [false], whatever [value] is and whatever the attribute
    was before. *)
Theorem setValue_loggedin_logs_out h w value o hkey :
  has_key h hkey ->
  session_M h = Some o ->
  exists r h' w',
    setValue "loggedin" value (h, w) = (r, (h', w'))
    /\ getValue h' "loggedin" "S" = Normal (Value (JsString value))
    /\ getValue h' "loggedin" "BOOL" = Normal (Value JsUndefined)
    /\ isLoggedIn h' = Normal (Value (JsBool false)).
Proof.
  intros Hk Hm. rewrite (setValue_loaded _ _ _ _ _ Hm).
  set (m' := set_property o "loggedin" value).
  assert (Hown : own m' !! "loggedin" = Some (AttrS value)).
  { unfold m', set_property. destruct (own o !! "loggedin"); simpl; apply lookup_insert_eq. }
  assert (Hm1 : session_M (set_session_M m' h) = Some m')
    by (by eapply session_M_set_session_M).
  assert (Hall : forall h', session_M h' = Some m' ->
     getValue h' "loggedin" "S" = Normal (Value (JsString value))
     /\ getValue h' "loggedin" "BOOL" = Normal (Value JsUndefined)
     /\ isLoggedIn h' = Normal (Value (JsBool false))).
  { intros h' Hh'. rewrite (isLoggedIn_session_M _ _ Hh').
    rewrite !(getValue_session_M _ _ _ _ Hh').
    rewrite !(read_property_own _ _ _ _ Hown), Hown. done. }
  rewrite (updateSession_has_key _ _ _ hkey) by exact Hk. cbv zeta. rewrite Hm1.
  destruct (send _ _) as [[o1|e] d]; eexists _, _, _; (split; [reflexivity|]); apply Hall.
  - by eapply session_M_set_session_M.
  - exact Hm1.
Qed.

(** *** What only [createSession] changes *)

Definition same_identity (h h' : Session) : Prop :=
  sessionId h' = sessionId h /\ sessionHash h' = sessionHash h /\ ttl h' = ttl h.

Lemma same_identity_refl h : same_identity h h.
Proof. by repeat split. Qed.

Lemma init_identity h w : same_identity h (fst (snd (init (h, w)))).
Proof.
  destruct (key_cases h) as [Hn|[key Hk]].
  - rewrite (init_no_key _ _ Hn). apply same_identity_refl.
  - rewrite (init_has_key _ _ _ Hk). cbv zeta.
    destruct (send _ _) as [[out|e] db']; [destruct (output_data out)|];
      by repeat split.
Qed.

Lemma updateSession_identity h w m : same_identity h (fst (snd (updateSession m (h, w)))).
Proof.
  destruct (key_cases h) as [Hn|[key Hk]].
  - rewrite (updateSession_no_key _ _ _ Hn). apply same_identity_refl.
  - rewrite (updateSession_has_key _ _ _ _ Hk). cbv zeta.
    destruct (send _ _) as [[out|e] db']; [destruct (session_M h)|];
      by repeat split.
Qed.

Lemma setValue_identity h w key value :
  same_identity h (fst (snd (setValue key value (h, w)))).
Proof.
  rewrite setValue_eq.
  assert (Hstep : forall h1 w1 m, same_identity h h1 ->
            same_identity h (fst (snd (updateSession m (set_session_M m h1, w1))))).
  { intros h1 w1 m (H1 & H2 & H3).
    destruct (updateSession_identity (set_session_M m h1) w1 m) as (I1 & I2 & I3).
    simpl in *. repeat split; congruence. }
  destruct (session_data h) as [data|] eqn:Hd.
  - cbv iota beta. rewrite Hd.
    destruct (attr_M data); [apply Hstep|]; apply same_identity_refl.
  - pose proof (init_identity h w) as Hi.
    destruct (init (h, w)) as [[r|e] [h1 w1]]; simpl in *; [|exact Hi].
    destruct (session_data h1) as [data|]; [|exact Hi].
    destruct (attr_M data); [by apply Hstep | exact Hi].
Qed.

(** X11. Only [createSession] changes who a handle is: after any calls of
    [init], [updateSession] and [setValue], whatever they completed with,
    the session id, the key and the time to live are those the handle had,
    and [getCookie] gives the same header. *)
Theorem identity_kept_without_create cs st :
  forallb (fun c => negb (is_create c)) cs = true ->
  same_identity (fst st) (fst (run_calls cs st))
  /\ getCookie (fst (run_calls cs st)) = getCookie (fst st).
Proof.
  intros Hcs.
  assert (H : same_identity (fst st) (fst (run_calls cs st))).
  { revert st. induction cs as [|c cs IH]; intros st; simpl in *.
    - apply same_identity_refl.
    - apply andb_prop in Hcs as [Hc Hcs].
      assert (Hone : same_identity (fst st) (fst (run_call c st))).
      { destruct st as [h w]. destruct c; simpl in *; try discriminate.
        - apply init_identity.
        - apply updateSession_identity.
        - apply setValue_identity. }
      destruct (IH Hcs (run_call c st)) as (I1 & I2 & I3).
      destruct Hone as (J1 & J2 & J3). repeat split; congruence. }
  split; [exact H|]. apply getCookie_sessionId. by destruct H.
Qed.

End Handle.

(** ** The cookie of a token, read back *)

Module RoundTrip.

(** The characters [encodeURIComponent] produces. *)
Definition uri_char (c : ascii) : bool := JS.unreserved c || Ascii.eqb c "%".

(** Well-formed UTF-8, the strings [encodeURIComponent] accepts. *)
Fixpoint well_formed_from (need : nat) (lo hi : Z) (s : string) : bool :=
  match s with
  | "" => match need with O => true | S _ => false end
  | String c r =>
      let b := byte_of_ascii c in
      match need with
      | O =>
          if (b <? 0x80)%Z then well_formed_from O 0 0 r
          else match JS.lead b with
               | Some (n, lo', hi') => well_formed_from n lo' hi' r
               | None => false
               end
      | S n => (lo <=? b)%Z && (b <=? hi)%Z && well_formed_from n 0x80 0xBF r
      end
  end.

Definition well_formed (s : string) : bool := well_formed_from O 0 0 s.

Ltac each_ascii c := destruct c as [[] [] [] [] [] [] [] []].

Lemma unreserved_facts c :
  JS.unreserved c = true ->
  Ascii.eqb c "%" = false /\ (byte_of_ascii c <? 0x80)%Z = true.
Proof. each_ascii c; vm_compute; intros; try discriminate; split; reflexivity. Qed.

Lemma uri_char_facts c :
  uri_char c = true ->
  Ascii.eqb c ";" = false /\ Ascii.eqb c "=" = false
  /\ (byte_of_ascii c =? 0x22)%Z = false
  /\ JS.ws1 (byte_of_ascii c) = false
  /\ (0x20 <=? byte_of_ascii c)%Z && (byte_of_ascii c <=? 0x7e)%Z = true
  /\ (byte_of_ascii c <? 0x80)%Z = true.
Proof. each_ascii c; vm_compute; intros; try discriminate; repeat split; reflexivity. Qed.

Lemma ascii_of_byte_of_ascii c : ascii_of_byte (byte_of_ascii c) = c.
Proof. each_ascii c; reflexivity. Qed.

Lemma escapes_escape c r :
  JS.escapes (JS.escape c +:+ r) = cons (JS.Oct (byte_of_ascii c)) <$> JS.escapes r.
Proof. each_ascii c; reflexivity. Qed.


(** A string of well-formed UTF-8 holds no unpaired surrogate. *)
Lemma well_formed_from_paired s : forall need lo hi,
  (need <> O -> (hi <= 0xBF)%Z) ->
  well_formed_from need lo hi s = true ->
  JS.unpaired_surrogate s = false
  /\ (need <> O -> match s with
                   | String c _ => (byte_of_ascii c <= hi)%Z
                   | "" => True
                   end).
Proof.
  induction s as [|c r IH]; intros need lo hi Hhi Hwf; [done|].
  cbn [well_formed_from] in Hwf. cbn [JS.unpaired_surrogate].
  destruct need as [|n].
  - assert (Hr : exists n' lo' hi', (n' <> O -> (hi' <= 0xBF)%Z)
              /\ well_formed_from n' lo' hi' r = true
              /\ (byte_of_ascii c = 0xED%Z -> n' <> O /\ (hi' < 0xA0)%Z)).
    { destruct (byte_of_ascii c <? 128)%Z eqn:Hb.
      - exists O, 0%Z, 0%Z. repeat split; try done. apply Z.ltb_lt in Hb. lia.
      - destruct (JS.lead (byte_of_ascii c)) as [[[n' lo'] hi']|] eqn:Hl; [|discriminate].
        exists n', lo', hi'. revert Hl. unfold JS.lead.
        repeat case_match; intros [= <- <- <-]; repeat split; try done; try lia. }
    destruct Hr as (n' & lo' & hi' & Hhi' & Hwf' & Hed).
    destruct (IH n' lo' hi' Hhi' Hwf') as [Hp Hnext]. rewrite Hp, orb_false_r.
    split; [|done]. destruct (Z.eqb_spec (byte_of_ascii c) 0xED) as [He|]; [|done].
    destruct (Hed He) as [Hn' Hlt]. specialize (Hnext Hn'). simpl.
    destruct r as [|c' r']; [done|]. apply Z.leb_gt. lia.
  - apply andb_prop in Hwf as [Hr Hwf]. apply andb_prop in Hr as [_ Hr].
    apply Z.leb_le in Hr. specialize (Hhi ltac:(discriminate)).
    destruct (IH n 0x80%Z 0xBF%Z ltac:(lia) Hwf) as [Hp _]. rewrite Hp, orb_false_r.
    split; [|by intros _].
    destruct (Z.eqb_spec (byte_of_ascii c) 0xED) as [He|]; [lia | done].
Qed.

Lemma well_formed_paired s : well_formed s = true -> JS.unpaired_surrogate s = false.
Proof. intros H. by destruct (well_formed_from_paired s O 0%Z 0%Z). Qed.

(** *** Decoding what was encoded *)

Fixpoint units (s : string) : list JS.unit_ :=
  match s with
  | "" => []
  | String c r =>
      (if JS.unreserved c then JS.Lit c else JS.Oct (byte_of_ascii c)) :: units r
  end.

Lemma escapes_encode s : JS.escapes (JS.percent_encode s) = Some (units s).
Proof.
  induction s as [|c r IH]; [reflexivity|]. simpl.
  destruct (JS.unreserved c) eqn:Hc.
  - destruct (unreserved_facts c Hc) as [Hp _]. simpl. rewrite Hp, IH. reflexivity.
  - rewrite escapes_escape, IH. reflexivity.
Qed.

Lemma lead_lo b n lo hi : JS.lead b = Some (n, lo, hi) -> (0x80 <= lo)%Z.
Proof.
  unfold JS.lead. repeat case_match; intros [= <- <- <-]; lia.
Qed.

Lemma utf8_units s : forall need lo hi,
  (need <> O -> (0x80 <= lo)%Z) ->
  well_formed_from need lo hi s = true ->
  JS.utf8 need lo hi (units s) = Some s.
Proof.
  induction s as [|c r IH]; intros need lo hi Hlo Hwf; simpl in *.
  - destruct need; [reflexivity | discriminate].
  - destruct (JS.unreserved c) eqn:Hc.
    + destruct (unreserved_facts c Hc) as [_ Hb]. rewrite Hb in Hwf.
      destruct need as [|n].
      * rewrite (IH O 0%Z 0%Z) by (done || lia). reflexivity.
      * apply andb_prop in Hwf as [Hr _]. apply andb_prop in Hr as [Hr _].
        apply Z.leb_le in Hr. apply Z.ltb_lt in Hb.
        specialize (Hlo ltac:(discriminate)). lia.
    + destruct need as [|n].
      * destruct (byte_of_ascii c <? 128)%Z.
        -- rewrite (IH O 0%Z 0%Z) by (done || lia). simpl.
           by rewrite ascii_of_byte_of_ascii.
        -- destruct (JS.lead (byte_of_ascii c)) as [[[n lo'] hi']|] eqn:Hl; [|discriminate].
           rewrite (IH n lo' hi'); [| intros _; by eapply lead_lo | exact Hwf].
           simpl. by rewrite ascii_of_byte_of_ascii.
      * apply andb_prop in Hwf as [Hr Hwf]. rewrite Hr.
        rewrite (IH n 0x80%Z 0xBF%Z) by (done || lia). simpl.
        by rewrite ascii_of_byte_of_ascii.
Qed.

Lemma decode_encode s :
  well_formed s = true ->
  JS.decodeURIComponent (JS.percent_encode s) = Some s.
Proof.
  intros H. unfold JS.decodeURIComponent. rewrite escapes_encode. simpl.
  apply utf8_units; [done | exact H].
Qed.

Lemma contains_String c c' r :
  Cookie.contains c (String c' r) = Ascii.eqb c c' || Cookie.contains c r.
Proof. reflexivity. Qed.

Lemma encode_without_percent s :
  Cookie.contains "%" (JS.percent_encode s) = false ->
  JS.percent_encode s = s.
Proof.
  induction s as [|c r IH]; [reflexivity|]. simpl.
  destruct (JS.unreserved c); [|discriminate].
  rewrite contains_String. intros [_ H]%orb_false_elim. by rewrite IH.
Qed.

Lemma tryDecode_encode s :
  well_formed s = true -> Cookie.tryDecode (JS.percent_encode s) = s.
Proof.
  intros H. unfold Cookie.tryDecode.
  destruct (Cookie.contains "%" _) eqn:Hp.
  - by rewrite decode_encode.
  - by apply encode_without_percent.
Qed.

(** *** The shape of an encoded value *)

Lemma forallb_string_app p a b :
  JS.forallb_string p (a +:+ b) = JS.forallb_string p a && JS.forallb_string p b.
Proof. induction a as [|c a IH]; simpl; [reflexivity|]. by rewrite IH, andb_assoc. Qed.

Lemma escape_uri_chars c : JS.forallb_string uri_char (JS.escape c) = true.
Proof. each_ascii c; reflexivity. Qed.

Lemma encode_uri_chars s : JS.forallb_string uri_char (JS.percent_encode s) = true.
Proof.
  induction s as [|c r IH]; [reflexivity|]. simpl.
  destruct (JS.unreserved c) eqn:Hc.
  - simpl. unfold uri_char at 1. by rewrite Hc, IH.
  - by rewrite forallb_string_app, escape_uri_chars, IH.
Qed.


Lemma forallb_string_impl (p q : ascii -> bool) s :
  (forall c, p c = true -> q c = true) ->
  JS.forallb_string p s = true -> JS.forallb_string q s = true.
Proof.
  intros Hpq. induction s as [|c r IH]; simpl; [done|].
  intros [Hc Hr]%andb_prop. by rewrite (Hpq _ Hc), IH.
Qed.

Definition head_ok (s : string) : Prop :=
  match s with
  | "" => True
  | String c _ => uri_char c = true
  end.

Lemma forallb_head s : JS.forallb_string uri_char s = true -> head_ok s.
Proof. destruct s as [|c r]; simpl; [done|]. by intros [Hc _]%andb_prop. Qed.

(** *** [trim] leaves an encoded value alone *)

Lemma ws2_low_l b0 b1 : (b0 < 0x80)%Z -> JS.ws2 b0 b1 = false.
Proof.
  intros H. unfold JS.ws2.
  replace (b0 =? 0xC2)%Z with false by (symmetry; apply Z.eqb_neq; lia). reflexivity.
Qed.

Lemma ws2_low_r b0 b1 : (b1 < 0x80)%Z -> JS.ws2 b0 b1 = false.
Proof.
  intros H. unfold JS.ws2.
  replace (b1 =? 0xA0)%Z with false by (symmetry; apply Z.eqb_neq; lia).
  apply andb_false_r.
Qed.

Lemma ws3_low_l b0 b1 b2 : (b0 < 0x80)%Z -> JS.ws3 b0 b1 b2 = false.
Proof.
  intros H. unfold JS.ws3.
  replace (b0 =? 0xE1)%Z with false by (symmetry; apply Z.eqb_neq; lia).
  replace (b0 =? 0xE2)%Z with false by (symmetry; apply Z.eqb_neq; lia).
  replace (b0 =? 0xE3)%Z with false by (symmetry; apply Z.eqb_neq; lia).
  replace (b0 =? 0xEF)%Z with false by (symmetry; apply Z.eqb_neq; lia).
  reflexivity.
Qed.

Lemma ws3_low_r b0 b1 b2 : (b2 < 0x80)%Z -> JS.ws3 b0 b1 b2 = false.
Proof.
  intros H. unfold JS.ws3.
  replace (b2 =? 0x80)%Z with false by (symmetry; apply Z.eqb_neq; lia).
  replace (b2 =? 0xA8)%Z with false by (symmetry; apply Z.eqb_neq; lia).
  replace (b2 =? 0xA9)%Z with false by (symmetry; apply Z.eqb_neq; lia).
  replace (b2 =? 0xAF)%Z with false by (symmetry; apply Z.eqb_neq; lia).
  replace (b2 =? 0x9F)%Z with false by (symmetry; apply Z.eqb_neq; lia).
  replace (b2 =? 0xBF)%Z with false by (symmetry; apply Z.eqb_neq; lia).
  replace (0x80 <=? b2)%Z with false by (symmetry; apply Z.leb_gt; lia).
  rewrite !andb_false_r. reflexivity.
Qed.

Lemma trimStart_head s : head_ok s -> JS.trimStart s = s.
Proof.
  destruct s as [|c0 r0]; [done|]. simpl. intros H.
  destruct (uri_char_facts c0 H) as (_ & _ & _ & Hw & _ & Hb%Z.ltb_lt).
  rewrite Hw. destruct r0 as [|c1 r1]; [done|].
  rewrite ws2_low_l by done. destruct r1 as [|c2 r2]; [done|].
  by rewrite ws3_low_l.
Qed.

Lemma trimStart_rev_head s : head_ok s -> JS.trimStart_rev s = s.
Proof.
  destruct s as [|c0 r0]; [done|]. simpl. intros H.
  destruct (uri_char_facts c0 H) as (_ & _ & _ & Hw & _ & Hb%Z.ltb_lt).
  rewrite Hw. destruct r0 as [|c1 r1]; [done|].
  rewrite ws2_low_r by done. destruct r1 as [|c2 r2]; [done|].
  by rewrite ws3_low_r.
Qed.

Lemma append_String c a b : String c a +:+ b = String c (a +:+ b).
Proof. reflexivity. Qed.

Lemma append_nil_r s : s +:+ "" = s.
Proof. induction s as [|c r IH]; [done|]. by rewrite append_String, IH. Qed.

Lemma append_assoc a b c : (a +:+ b) +:+ c = a +:+ (b +:+ c).
Proof. induction a as [|x a IH]; [done|]. by rewrite !append_String, IH. Qed.

Lemma rev_app_rev_app s1 : forall s2 s3,
  String.rev_app (String.rev_app s1 s2) s3 = String.rev_app s2 (s1 +:+ s3).
Proof.
  induction s1 as [|c s1 IH]; intros s2 s3; simpl; [done|]. by rewrite IH.
Qed.

Lemma rev_involutive s : String.rev (String.rev s) = s.
Proof. unfold String.rev. rewrite rev_app_rev_app. simpl. apply append_nil_r. Qed.

Lemma rev_app_forallb p s1 : forall s2,
  JS.forallb_string p (String.rev_app s1 s2)
  = JS.forallb_string p s1 && JS.forallb_string p s2.
Proof.
  induction s1 as [|c s1 IH]; intros s2; simpl; [done|].
  rewrite IH. simpl. destruct (p c), (JS.forallb_string p s1); reflexivity.
Qed.

Lemma trim_uri_chars s : JS.forallb_string uri_char s = true -> JS.trim s = s.
Proof.
  intros H. unfold JS.trim, JS.trimEnd.
  rewrite (trimStart_head s) by by apply forallb_head.
  rewrite trimStart_rev_head; [apply rev_involutive|].
  apply forallb_head. unfold String.rev. rewrite rev_app_forallb, H. reflexivity.
Qed.

Lemma unquote_uri_chars s : JS.forallb_string uri_char s = true -> Cookie.unquote s = s.
Proof.
  intros H%forallb_head. destruct s as [|c r]; [done|]. simpl.
  destruct (uri_char_facts c H) as (_ & _ & Hq & _). by rewrite Hq.
Qed.

Lemma field_chars_uri_chars s :
  JS.forallb_string uri_char s = true -> Cookie.field_chars s = true.
Proof.
  induction s as [|c r IH]; [done|]. simpl. intros [Hc Hr]%andb_prop.
  destruct (uri_char_facts c Hc) as (_ & _ & _ & _ & Hf & _).
  rewrite Hf, orb_true_r. by apply IH.
Qed.

(** *** The pieces of the header *)

Lemma split_app sep a r :
  JS.forallb_string (fun c => negb (Ascii.eqb c sep)) a = true ->
  Cookie.split sep (a +:+ String sep r) = a :: Cookie.split sep r.
Proof.
  induction a as [|c a IH]; simpl.
  - intros _. by rewrite Ascii.eqb_refl.
  - intros [Hc Ha]%andb_prop. apply negb_true_iff in Hc. rewrite Hc.
    by rewrite (IH Ha).
Qed.


(** The header [getCookie] makes for an encoded value. *)
Definition header (value : string) : string :=
  "session=" +:+ value +:+ "; Path=/; HttpOnly; Secure".

Lemma serialize_session s :
  JS.unpaired_surrogate s = false ->
  Cookie.serialize "session" s
    {| Cookie.httpOnly := true; Cookie.secure := true; Cookie.path := Some "/" |}
  = Normal (header (JS.percent_encode s)).
Proof.
  intros Hs. unfold Cookie.serialize, header, JS.encodeURIComponent. rewrite Hs.
  change (Cookie.fieldContent "session") with true.
  change (Cookie.path _) with (Some "/").
  change (Cookie.httpOnly _) with true. change (Cookie.secure _) with true.
  change (String.eqb "/" "") with false. change (Cookie.fieldContent "/") with true.
  cbv iota beta. change (negb true) with false. cbv iota.
  set (e := JS.percent_encode s).
  assert (He : negb (String.eqb e "") && negb (Cookie.fieldContent e) = false).
  { unfold Cookie.fieldContent.
    rewrite (field_chars_uri_chars e) by apply encode_uri_chars.
    by destruct (String.eqb e ""). }
  rewrite He. cbv iota. f_equal.
  rewrite !append_assoc. reflexivity.
Qed.

Lemma parse_header e :
  JS.forallb_string uri_char e = true ->
  Cookie.parse (header e) !! "session" = Some (Cookie.tryDecode e).
Proof.
  intros He. unfold Cookie.parse, header.
  change ("session=" +:+ e +:+ "; Path=/; HttpOnly; Secure")
    with ("session=" +:+ (e +:+ String ";" " Path=/; HttpOnly; Secure")).
  rewrite <- append_assoc, split_app.
  2:{ rewrite forallb_string_app. apply andb_true_intro. split; [reflexivity|].
      eapply forallb_string_impl; [|exact He]. intros c Hc.
      destruct (uri_char_facts c Hc) as (Hs & _). by rewrite Hs. }
  change (Cookie.split ";" " Path=/; HttpOnly; Secure")
    with [" Path=/"; " HttpOnly"; " Secure"].
  cbn [fold_left]. unfold Cookie.assign.
  change (Cookie.cut "=" " Secure") with (@None (string * string)).
  change (Cookie.cut "=" " HttpOnly") with (@None (string * string)).
  change (Cookie.cut "=" " Path=/") with (Some (" Path", "/")).
  change (Cookie.cut "=" ("session=" +:+ e)) with (Some ("session", e)).
  cbv iota beta.
  change (JS.trim "session") with "session". change (JS.trim " Path") with "Path".
  change (JS.inherited "session") with false. change (JS.inherited "Path") with false.
  cbv iota.
  rewrite lookup_empty. rewrite lookup_insert_ne by discriminate.
  rewrite lookup_empty. rewrite lookup_insert_ne by discriminate.
  rewrite lookup_insert_eq.
  by rewrite (trim_uri_chars e He), (unquote_uri_chars e He).
Qed.

Lemma getCookie_header h T :
  sessionId h = JsString T ->
  JS.number_is_zero T = false ->
  JS.unpaired_surrogate T = false ->
  getCookie h = Normal (header (JS.percent_encode T)).
Proof.
  intros Hid Hz Hs. unfold getCookie. rewrite Hid. simpl loose_ne_false. rewrite Hz.
  by apply serialize_session.
Qed.

Lemma getSessionId_header T :
  T <> "" -> well_formed T = true ->
  getSessionId (header (JS.percent_encode T)) = JsString T.
Proof.
  intros Hne Hwf. unfold getSessionId.
  change (String.eqb (header (JS.percent_encode T)) "") with false. cbv iota zeta.
  rewrite parse_header by apply encode_uri_chars.
  rewrite (tryDecode_encode T Hwf). simpl.
  by destruct (String.eqb_spec T "").
Qed.

Lemma number_is_zero_empty T : JS.number_is_zero T = false -> T <> "".
Proof. by intros H ->. Qed.

(** X14. For every well-formed token whose number is not zero (a UUID, for
    one), the header made by [getCookie] reads back as the token. *)
Theorem getCookie_getSessionId h T :
  sessionId h = JsString T ->
  JS.number_is_zero T = false ->
  well_formed T = true ->
  getCookie h = Normal (header (JS.percent_encode T))
  /\ getSessionId (header (JS.percent_encode T)) = JsString T.
Proof.
  intros Hid Hz Hwf. split.
  - by apply getCookie_header, well_formed_paired.
  - by apply getSessionId_header; [apply number_is_zero_empty|].
Qed.

(** X15. A token whose number is zero ([0], [0.0], [0x0], blanks) is
    written as the empty value, and that reads back as [false]. *)
Theorem getCookie_zero_token h T :
  sessionId h = JsString T ->
  JS.number_is_zero T = true ->
  getCookie h = Normal (header "") /\ getSessionId (header "") = JsBool false.
Proof.
  intros Hid Hz. split; [|by vm_compute].
  unfold getCookie. rewrite Hid. simpl loose_ne_false. rewrite Hz.
  by apply (serialize_session "").
Qed.

End RoundTrip.

(** ** The handle a request starts with, and the header it answers with *)


(** The octets RFC 6265 allows in a cookie value: printable ASCII without
    space, double quote, comma, semicolon and backslash. *)
Definition cookie_octet (c : ascii) : bool :=
  ((byte_of_ascii c =? 0x21) || JS.in_range 0x23 0x2b c || JS.in_range 0x2d 0x3a c
   || JS.in_range 0x3c 0x5b c || JS.in_range 0x5d 0x7e c)%Z.

Lemma uri_char_cookie_octet c : RoundTrip.uri_char c = true -> cookie_octet c = true.
Proof. RoundTrip.each_ascii c; vm_compute; intros; try discriminate; reflexivity. Qed.

(** X17. What [getCookie] gives depends on the text of the session id (the
    empty text when the id loosely equals [false]): when that holds an
    unpaired surrogate, [getCookie] throws a [URIError]; otherwise it gives
    [session=<value>; Path=/; HttpOnly; Secure], where the value is the
    percent-encoding of the text and holds cookie-value octets only, so
    the id cannot end the value or add an attribute. *)
Theorem getCookie_shape h :
  let id := ToString (if loose_ne_false (sessionId h) then sessionId h else JsString "") in
  (JS.unpaired_surrogate id = true -> getCookie h = Throw (URIError "URI malformed"))
  /\ (JS.unpaired_surrogate id = false ->
      exists value,
        getCookie h = Normal ("session=" +:+ value +:+ "; Path=/; HttpOnly; Secure")
        /\ value = JS.percent_encode id
        /\ JS.forallb_string cookie_octet value = true).
Proof.
  intros id. split; intros Hs.
  - unfold getCookie. fold id. unfold Cookie.serialize, JS.encodeURIComponent.
    rewrite Hs. reflexivity.
  - eexists. split; [by apply RoundTrip.serialize_session|]. split; [reflexivity|].
    eapply RoundTrip.forallb_string_impl; [|apply RoundTrip.encode_uri_chars].
    apply uri_char_cookie_octet.
Qed.

(** ** The key *)

Definition base64_char (c : ascii) : bool := Cookie.contains c Base64.alphabet.

Lemma digit_base64_char n : base64_char (Base64.digit n) = true.
Proof.
  unfold Base64.digit.
  assert (H : (Z.to_nat (n mod 64) < 64)%nat).
  { pose proof (Z.mod_pos_bound n 64 eq_refl). lia. }
  remember (Z.to_nat (n mod 64)) as k eqn:Hk. clear Hk.
  do 64 (destruct k as [|k]; [reflexivity|]). lia.
Qed.

Lemma base64_chars_32 l :
  length l = 32%nat ->
  JS.forallb_string (fun c => base64_char c || Ascii.eqb c "=") (Base64.encode l) = true
  /\ String.get 43 (Base64.encode l) = Some "="%char
  /\ JS.forallb_string base64_char (String.substring 0 43 (Base64.encode l)) = true.
Proof.
  intros H. do 32 (destruct l as [|? l]; [simpl in H; discriminate H|]).
  destruct l; [|simpl in H; discriminate H].
  cbn [Base64.encode].
  repeat match goal with
         | |- context [Base64.digit ?n] =>
             let d := fresh "d" in
             let Hd := fresh "Hd" in
             pose proof (digit_base64_char n) as Hd;
             set (d := Base64.digit n) in *; clearbody d
         end.
  cbn [JS.forallb_string String.get String.substring].
  repeat match goal with H : base64_char _ = true |- _ => rewrite H; clear H end.
  repeat split; reflexivity.
Qed.

(** X18. The key of a token is storage-safe and of fixed size, whatever the
    token: 44 characters, 43 of the base64 alphabet followed by one [=];
    it is the base64 form of the SHA-256 digest, as the digests of the
    empty text and of [abc] show. *)
Theorem hash_shape s :
  String.length (hash s) = 44%nat
  /\ String.get 43 (hash s) = Some "="%char
  /\ JS.forallb_string base64_char (String.substring 0 43 (hash s)) = true
  /\ hash "" = "47DEQpj8HBSa+/TImW+5JCeuQeRkm5NMpJWZG3hSuFU="
  /\ hash "abc" = "ungWv48Bz+pBQUDeXa4iI7ADYaOWF3qctBD/YfIAFa0=".
Proof.
  split; [apply hash_length|].
  destruct (base64_chars_32 (SHA256.digest (bytes_of_string s)) (digest_length _))
    as (_ & H1 & H2).
  split; [exact H1|]. split; [exact H2|]. by vm_compute.
Qed.

(** ** From one request to the next *)

Section Requests.

Context {DB : Type}.
Variable send : Command -> DB -> Completion CommandOutput * DB.
Variable getTime : nat -> Z.
Variable randomUUID : nat -> string.
Variable SESSION_TABLE : option string.

(** X19. A session made in one request is found in the next. When
    [createSession o] succeeds, the header [getCookie] gives leads a new
    handle, constructed from it in a later request, to the key of the
    record written: its [init] sends one [GetItem] under the hash of the
    token, and when the store answers with the own properties of [o],
    [getValue] reads them. The token is taken well-formed and not a
    numeral of value zero, as every UUID is. *)
Theorem session_survives_request h w o out1 db1 out2 db2 (w2 : World DB) options :
  let tok := randomUUID (draws w) in
  JS.number_is_zero tok = false ->
  RoundTrip.well_formed tok = true ->
  send (PutItemCommand SESSION_TABLE (hash tok) o (expiry (getTime (dates w)) (ttl h))) (db w)
    = (Normal out1, db1) ->
  send (GetItemCommand SESSION_TABLE (hash tok)) (db w2) = (Normal out2, db2) ->
  output_data out2 = Some (AttrM (own o) ObjectPrototype) ->
  exists h1 w1 header h2 w3,
    createSession send getTime randomUUID SESSION_TABLE o (h, w) = (Normal tok, (h1, w1))
    /\ getCookie h1 = Normal header
    /\ init send SESSION_TABLE (constructor header options, w2)
       = (Normal (Some out2), (h2, w3))
    /\ calls w3 = calls w2 ++ [GetItemCommand SESSION_TABLE (hash tok)]
    /\ sessionId h2 = JsString tok
    /\ forall key type, getValue h2 key type = read_property (plain (own o)) key type.
Proof.
  intros tok Hz Hwf Hput Hget Hdata.
  pose proof (RoundTrip.number_is_zero_empty _ Hz) as Hne.
  rewrite createSession_eq. cbv zeta. fold tok. rewrite Hput.
  set (h1 := set_sessionId (JsString tok) (set_sessionHash (Some (hash tok)) h)).
  set (header := RoundTrip.header (JS.percent_encode tok)).
  assert (Hc : getCookie h1 = Normal header).
  { apply RoundTrip.getCookie_header; [reflexivity | exact Hz |].
    by apply RoundTrip.well_formed_paired. }
  assert (Hid : getSessionId header = JsString tok)
    by (by apply RoundTrip.getSessionId_header).
  assert (Hk : has_key (constructor header options) (hash tok)).
  { unfold has_key, constructor. simpl. rewrite Hid. simpl.
    apply String.eqb_neq in Hne as ->. split; [reflexivity|].
    intros Heq. pose proof (hash_length tok) as Hl. rewrite Heq in Hl. discriminate. }
  eexists _, _, header, _, _. split; [reflexivity|]. split; [exact Hc|].
  rewrite (init_has_key _ _ _ _ _ Hk). cbv zeta. rewrite Hget, Hdata.
  split; [reflexivity|]. split; [reflexivity|]. split; [exact Hid|].
  intros key type. apply getValue_session_M.
  unfold session_M, session_data. simpl. by rewrite Hdata.
Qed.

(** X20. On a handle that has no cached mapping, an [updateSession] right
    after a successful [createSession] sends its [UpdateItem] under the key
    of the new token and then throws, as [createSession] caches nothing:
    the record is updated in the store, the call fails. *)
Theorem createSession_then_updateSession h w o o' out1 db1 :
  let tok := randomUUID (draws w) in
  session_M h = None ->
  send (PutItemCommand SESSION_TABLE (hash tok) o (expiry (getTime (dates w)) (ttl h))) (db w)
    = (Normal out1, db1) ->
  exists h1 w1 e w2,
    createSession send getTime randomUUID SESSION_TABLE o (h, w) = (Normal tok, (h1, w1))
    /\ updateSession send getTime SESSION_TABLE o' (h1, w1) = (Throw e, (h1, w2))
    /\ calls w2 = calls w ++
         [PutItemCommand SESSION_TABLE (hash tok) o (expiry (getTime (dates w)) (ttl h));
          UpdateItemCommand SESSION_TABLE (hash tok)
            (expiry (getTime (S (dates w))) (ttl h)) o']
    /\ (forall out2 db2,
          send (UpdateItemCommand SESSION_TABLE (hash tok)
                  (expiry (getTime (S (dates w))) (ttl h)) o') db1 = (Normal out2, db2) ->
          e = Error "Session had no data before, was this a valid session?"
          /\ db w2 = db2).
Proof.
  intros tok Hm Hput. rewrite createSession_eq. cbv zeta. fold tok. rewrite Hput.
  set (h1 := set_sessionId (JsString tok) (set_sessionHash (Some (hash tok)) h)).
  set (w1 := sent _ db1 (ticked (drawn w))).
  assert (Hk : has_key h1 (hash tok)).
  { split; [reflexivity|].
    intros Heq. pose proof (hash_length tok) as Hl. rewrite Heq in Hl. discriminate. }
  pose proof (updateSession_has_key send getTime SESSION_TABLE h1 w1 o' _ Hk) as Hu.
  cbv zeta in Hu. change (session_M h1) with (session_M h) in Hu. rewrite Hm in Hu.
  change (ttl h1) with (ttl h) in Hu. change (dates w1) with (S (dates w)) in Hu.
  change (db w1) with db1 in Hu.
  destruct (send (UpdateItemCommand _ _ _ _) db1) as [[out2|e] db2] eqn:Hs;
    eexists h1, w1, _, _; (split; [reflexivity|]); (split; [exact Hu|]);
    (split; [simpl; by rewrite <- app_assoc|]); intros out3 db3 [=]; by subst.
Qed.

End Requests.

(** ** The class on concrete inputs *)

(** A completion and the state it left, from the completion alone. *)
Lemma normal_eta {A S1 S2 : Type} (x : Completion A * (S1 * S2)) (a : A) :
  fst x = Normal a -> x = (Normal a, (fst (snd x), snd (snd x))).
Proof. destruct x as [r [s1 s2]]; simpl. by intros ->. Qed.

Lemma throw_eta {A S1 S2 : Type} (x : Completion A * (S1 * S2)) (e : JsError) :
  fst x = Throw e -> x = (Throw e, (fst (snd x), snd (snd x))).
Proof. destruct x as [r [s1 s2]]; simpl. by intros ->. Qed.

(** The scenario of the tests: the cookie header [session=12345;] and a
    table holding a record at [hash "12345"]. *)
Definition sample_data : gmap string AttributeValue :=
  {[ "loggedin" := AttrBOOL true; "bsn" := AttrS "12345678"; "state" := AttrS "12345" ]}.

Definition seeded_table : gmap string (gmap string AttributeValue) :=
  {[ hash "12345" :=
       {[ "sessionid" := AttrS (hash "12345");
          "data" := AttrM sample_data ObjectPrototype;
          "ttl" := AttrN "1700000900" ]} ]}.

Definition seeded_world : World (gmap string (gmap string AttributeValue)) :=
  empty_world seeded_table.

(** Constructed from the cookie, nothing loaded yet. *)
Definition fresh_handle : Session := constructor "session=12345;" None.

(** After [init()]. *)
Definition loaded_handle : Session :=
  fst (snd (init table_send sample_table (fresh_handle, seeded_world))).
Definition loaded_world : World (gmap string (gmap string AttributeValue)) :=
  snd (snd (init table_send sample_table (fresh_handle, seeded_world))).

Definition new_state_data : Obj := plain {[ "state" := AttrS "newState" ]}.

Example scenario_load :
  isLoggedIn loaded_handle = Normal (Value (JsBool true))
  /\ getValue loaded_handle "bsn" "S" = Normal (Value (JsString "12345678"))
  /\ sessionId loaded_handle = JsString "12345"
  /\ calls loaded_world = [GetItemCommand sample_table (hash "12345")].
Proof. vm_compute. repeat split; reflexivity. Qed.

Lemma fresh_handle_key : has_key fresh_handle (hash "12345").
Proof. split; [vm_compute; reflexivity | vm_compute; discriminate]. Qed.

Lemma loaded_handle_key : has_key loaded_handle (hash "12345").
Proof. split; [vm_compute; reflexivity | vm_compute; discriminate]. Qed.

Lemma loaded_handle_M : session_M loaded_handle = Some (plain sample_data).
Proof. vm_compute. reflexivity. Qed.

(** C2 at the handle of the test "that was not valid throws". *)
Lemma updateSession_without_cache_throws_witness :
  has_key fresh_handle (hash "12345")
  /\ session_M fresh_handle = None
  /\ let command :=
       UpdateItemCommand sample_table (hash "12345")
         (expiry (sample_getTime (dates seeded_world)) (ttl fresh_handle)) new_state_data in
     exists e w',
       updateSession table_send sample_getTime sample_table new_state_data
         (fresh_handle, seeded_world) = (Throw e, (fresh_handle, w'))
       /\ calls w' = calls seeded_world ++ [command]
       /\ (forall out db', table_send command (db seeded_world) = (Normal out, db') ->
           e = Error "Session had no data before, was this a valid session?").
Proof.
  assert (H2 : session_M fresh_handle = None) by (vm_compute; reflexivity).
  split; [exact fresh_handle_key|]. split; [exact H2|].
  exact (updateSession_without_cache_throws table_send sample_getTime sample_table
           fresh_handle seeded_world new_state_data (hash "12345") fresh_handle_key H2).
Defined.

(** C3 at the cookie header [session=;] of the tests. *)
Lemma no_session_id_writes_fail_witness :
  truthy (getSessionId "session=;") = false
  /\ let h := constructor "session=;" None in
     (exists e, updateSession table_send sample_getTime sample_table new_state_data
                  (h, seeded_world) = (Throw e, (h, seeded_world)))
     /\ (exists e, setValue table_send sample_getTime sample_table "bsn" "123"
                     (h, seeded_world) = (Throw e, (h, seeded_world)))
     /\ calls (snd (snd (updateSession table_send sample_getTime sample_table new_state_data
                           (h, seeded_world)))) = calls seeded_world
     /\ calls (snd (snd (setValue table_send sample_getTime sample_table "bsn" "123"
                           (h, seeded_world)))) = calls seeded_world
     /\ (forall cs, forallb (fun c => negb (is_create c)) cs = true ->
         run_calls table_send sample_getTime sample_randomUUID sample_table cs
           (h, seeded_world) = (h, seeded_world)).
Proof.
  assert (H : truthy (getSessionId "session=;") = false) by (vm_compute; reflexivity).
  split; [exact H|].
  exact (no_session_id_writes_fail table_send sample_getTime sample_randomUUID sample_table
           "session=;" None seeded_world new_state_data "bsn" "123" H).
Defined.

(** C6 at the test "will also update the session object". *)
Definition updated_handle : Session :=
  fst (snd (updateSession table_send sample_getTime sample_table new_state_data
              (loaded_handle, loaded_world))).
Definition updated_world : World (gmap string (gmap string AttributeValue)) :=
  snd (snd (updateSession table_send sample_getTime sample_table new_state_data
              (loaded_handle, loaded_world))).

Lemma updateSession_replaces_cache_witness :
  updateSession table_send sample_getTime sample_table new_state_data
    (loaded_handle, loaded_world) = (Normal tt, (updated_handle, updated_world))
  /\ session_M updated_handle = Some new_state_data
  /\ (forall key type,
        getValue updated_handle key type = read_property new_state_data key type)
  /\ (forall m, new_state_data = plain m -> forall key type, is_tag type = true ->
        getValue updated_handle key type =
        Normal (Value match m !! key with
                      | Some av => attr_get av type
                      | None => JsUndefined
                      end)).
Proof.
  assert (H : updateSession table_send sample_getTime sample_table new_state_data
                (loaded_handle, loaded_world)
              = (Normal tt, (updated_handle, updated_world))).
  { refine (normal_eta
              (updateSession table_send sample_getTime sample_table new_state_data
                 (loaded_handle, loaded_world)) tt _).
    vm_compute. reflexivity. }
  split; [exact H|].
  exact (updateSession_replaces_cache table_send sample_getTime sample_table
           loaded_handle loaded_world new_state_data updated_handle updated_world H).
Defined.

Example scenario_update :
  getValue loaded_handle "state" "S" = Normal (Value (JsString "12345"))
  /\ getValue updated_handle "state" "S" = Normal (Value (JsString "newState"))
  /\ getValue updated_handle "bsn" "S" = Normal (Value JsUndefined).
Proof. vm_compute. repeat split; reflexivity. Qed.

(** What the two reads of [getValue] find beyond the attributes: the
    functions every object inherits, and their names. *)
Example scenario_inherited :
  getValue loaded_handle "constructor" "name" = Normal (Value (JsString "Object"))
  /\ getValue loaded_handle "toString" "S" = Normal (Value JsUndefined)
  /\ getValue loaded_handle "bsn" "toString" = Normal (BuiltinFunction "toString")
  /\ getValue loaded_handle "__proto__" "__proto__" = Normal Null
  /\ getValue loaded_handle "__proto__" "S" = Normal (Value JsUndefined)
  /\ (exists e, getValue loaded_handle "valueOf" "caller" = Throw e).
Proof. vm_compute. repeat split; try reflexivity. by eexists. Qed.

(** The test "Set data add data to the sessions". *)
Lemma setValue_merges_witness :
  has_key loaded_handle (hash "12345")
  /\ session_M loaded_handle = Some (plain sample_data)
  /\ let command :=
       UpdateItemCommand sample_table (hash "12345")
         (expiry (sample_getTime (dates loaded_world)) (ttl loaded_handle))
         (set_property (plain sample_data) "bsn" "123") in
     exists r h' w',
       setValue table_send sample_getTime sample_table "bsn" "123"
         (loaded_handle, loaded_world) = (r, (h', w'))
       /\ calls w' = calls loaded_world ++ [command]
       /\ getValue h' "bsn" "S" = Normal (Value (JsString "123"))
       /\ (("bsn" = "__proto__" -> own (plain sample_data) !! "bsn" <> None) ->
           own (set_property (plain sample_data) "bsn" "123")
           = <["bsn" := AttrS "123"]> (own (plain sample_data))
           /\ forall key' type, key' <> "bsn" ->
                getValue h' key' type = getValue loaded_handle key' type)
       /\ (r = Normal tt <->
           exists out db', table_send command (db loaded_world) = (Normal out, db')).
Proof.
  split; [exact loaded_handle_key|]. split; [exact loaded_handle_M|].
  exact (setValue_merges table_send sample_getTime sample_table
           loaded_handle loaded_world "bsn" "123" (plain sample_data) (hash "12345")
           loaded_handle_key loaded_handle_M).
Defined.

(** C7 at the key [__proto__]: the assignment [data.M[key] = { S: value }]
    reaches the setter every object inherits and adds no property. The
    call completes normally and [getValue] answers [value] on this handle,
    but the mapping sent in the one [UpdateItem] holds the three attributes
    it held before and no [__proto__]: the value is not written to the
    store, and a handle that loads the record afterwards does not find
    it. *)
Theorem setValue_proto_key_not_written :
  let r := setValue table_send sample_getTime sample_table "__proto__" "x"
             (loaded_handle, loaded_world) in
  let h' := fst (snd r) in
  let w' := snd (snd r) in
  let reloaded :=
    fst (snd (init table_send sample_table (fresh_handle, empty_world (db w')))) in
  fst r = Normal tt
  /\ getValue h' "__proto__" "S" = Normal (Value (JsString "x"))
  /\ map is_write (calls w') = [false; true]
  /\ map command_key (calls w') = [hash "12345"; hash "12345"]
  /\ command_data <$> last (calls w')
     = Some (Some (mkObj sample_data (ValueObject "x")))
  /\ sample_data !! "__proto__" = None
  /\ (db w' !! hash "12345") ≫= (fun item => item !! "data")
     = Some (AttrM sample_data ObjectPrototype)
  /\ session_M reloaded = Some (plain sample_data)
  /\ getValue reloaded "__proto__" "S" = Normal (Value JsUndefined)
  /\ getValue reloaded "bsn" "S" = Normal (Value (JsString "12345678")).
Proof.
  vm_compute. repeat split; reflexivity.
Qed.

(** C10: the loaded handle, and a client that rejects the update. *)
Lemma setValue_rejected_keeps_assignment_witness :
  has_key loaded_handle (hash "12345")
  /\ session_M loaded_handle = Some (plain sample_data)
  /\ rejecting_send
       (UpdateItemCommand sample_table (hash "12345")
          (expiry (sample_getTime (dates loaded_world)) (ttl loaded_handle))
          (set_property (plain sample_data) "bsn" "123")) (db loaded_world)
     = (Throw (ClientError "ProvisionedThroughputExceededException"), db loaded_world)
  /\ exists h' w',
       setValue rejecting_send sample_getTime sample_table "bsn" "123"
         (loaded_handle, loaded_world)
       = (Throw (ClientError "ProvisionedThroughputExceededException"), (h', w'))
       /\ calls w' = calls loaded_world ++
            [UpdateItemCommand sample_table (hash "12345")
               (expiry (sample_getTime (dates loaded_world)) (ttl loaded_handle))
               (set_property (plain sample_data) "bsn" "123")]
       /\ db w' = db loaded_world
       /\ session_M h' = Some (set_property (plain sample_data) "bsn" "123")
       /\ getValue h' "bsn" "S" = Normal (Value (JsString "123")).
Proof.
  split; [exact loaded_handle_key|]. split; [exact loaded_handle_M|]. split; [reflexivity|].
  exact (setValue_rejected_keeps_assignment rejecting_send sample_getTime sample_table
           loaded_handle loaded_world "bsn" "123" (plain sample_data) (hash "12345")
           _ _ loaded_handle_key loaded_handle_M eq_refl).
Defined.

(** The cache says ["123"], the table still says ["12345678"]; and the
    same with the key [__proto__]. *)
Example scenario_rejected_setValue :
  let st := snd (setValue rejecting_send sample_getTime sample_table "bsn" "123"
                   (loaded_handle, loaded_world)) in
  let st' := snd (setValue rejecting_send sample_getTime sample_table "__proto__" "123"
                    (loaded_handle, loaded_world)) in
  getValue (fst st) "bsn" "S" = Normal (Value (JsString "123"))
  /\ getValue (fst (snd (init table_send sample_table (fresh_handle, mkWorld (db (snd st)) [] 0 0))))
       "bsn" "S" = Normal (Value (JsString "12345678"))
  /\ getValue (fst st') "__proto__" "S" = Normal (Value (JsString "123")).
Proof. vm_compute. repeat split; reflexivity. Qed.

(** C1: a handle without cookie, as in the README, and
    [createSession({ test: { S: 'ok' } })]. *)
Definition test_data : Obj := plain {[ "test" := AttrS "ok" ]}.

Definition no_cookie_handle : Session := constructor "" None.

Definition created_handle : Session :=
  fst (snd (createSession table_send sample_getTime sample_randomUUID sample_table test_data
              (no_cookie_handle, seeded_world))).
Definition created_world : World (gmap string (gmap string AttributeValue)) :=
  snd (snd (createSession table_send sample_getTime sample_randomUUID sample_table test_data
              (no_cookie_handle, seeded_world))).




(** Right after [createSession], an [updateSession] writes to the store
    and then throws, for want of a cached record; after an [init()] the
    attributes just written are there. *)
Example scenario_create_update :
  let r := updateSession table_send sample_getTime sample_table new_state_data
             (created_handle, created_world) in
  let st := snd (init table_send sample_table (created_handle, created_world)) in
  fst r = Throw (Error "Session had no data before, was this a valid session?")
  /\ map is_write (calls (snd (snd r))) = [true; true]
  /\ getValue (fst st) "test" "S" = Normal (Value (JsString "ok")).
Proof. vm_compute. repeat split; reflexivity. Qed.

(** The scenario of the integration test: after [createSession], a
    [setValue] loads the record first; three commands were sent, two of
    them writes. *)
Example scenario_create_setValue :
  let st := snd (setValue table_send sample_getTime sample_table "newkey" "newvalue"
                   (created_handle, created_world)) in
  getValue (fst st) "test" "S" = Normal (Value (JsString "ok"))
  /\ getValue (fst st) "newkey" "S" = Normal (Value (JsString "newvalue"))
  /\ map is_write (calls (snd st)) = [true; false; true].
Proof. vm_compute. repeat split; reflexivity. Qed.

(** The keys of a run: load, update, create, set a value. *)
Example scenario_keys :
  map command_key
    (calls (snd (run_calls table_send sample_getTime sample_randomUUID sample_table
                   [CallInit; CallUpdateSession new_state_data;
                    CallCreateSession test_data; CallSetValue "bsn" "123"]
                   (fresh_handle, seeded_world))))
  = [hash "12345"; hash "12345"; hash (sample_randomUUID 0); hash (sample_randomUUID 0)].
Proof. vm_compute. reflexivity. Qed.

(** C4 at a [createSession] the store rejects, on the handle of the cookie
    [session=12345;]. The call throws; the handle's session id, and the
    cookie it sends, are still those of the token [12345], but its key is
    the hash of the UUID drawn for the rejected call. The [GetItem] of the
    [init()] that follows is sent under that key, which is not the key
    derived from the handle's token. *)
Theorem key_of_rejected_createSession :
  let r := createSession rejecting_send sample_getTime sample_randomUUID sample_table
             test_data (fresh_handle, seeded_world) in
  let h1 := fst (snd r) in
  let r' := init table_send sample_table (snd r) in
  fst r = Throw (ClientError "ProvisionedThroughputExceededException")
  /\ sessionId h1 = JsString "12345"
  /\ getCookie h1 = Normal "session=12345; Path=/; HttpOnly; Secure"
  /\ sessionHash h1 = Some "zRwGiHDUPfhXCvpt/BhuP3ThRatMLk0CigXo6GEuHWk="
  /\ map command_key (calls (snd (snd r')))
     = ["zRwGiHDUPfhXCvpt/BhuP3ThRatMLk0CigXo6GEuHWk=";
        "zRwGiHDUPfhXCvpt/BhuP3ThRatMLk0CigXo6GEuHWk="]
  /\ map is_write (calls (snd (snd r'))) = [true; false]
  /\ fst r' = Normal None
  /\ hash "12345" = "WZRHGrsBESr8wYFZ9sx0tPURuZgG2lmzyvWpwXPKz8U="
  /\ hash (sample_randomUUID 0) = "zRwGiHDUPfhXCvpt/BhuP3ThRatMLk0CigXo6GEuHWk="
  /\ (seeded_table !! hash "12345") ≫= (fun item => item !! "data")
     = Some (AttrM sample_data ObjectPrototype).
Proof. vm_compute. repeat split; reflexivity. Qed.

(** C5: a time to live of 0.01 minute and the clock at 0.5 s. The write
    carries 1 = floor(0.5 + 0.6); floor(0.5) + 0.01 * 60 is 0.6, in doubles
    the one just below it. *)
Lemma expiry_fractional_ttl_counterexample :
  map command_ttl
    (calls (snd (snd (createSession table_send (fun _ => 500%Z) sample_randomUUID sample_table
                        test_data
                        (constructor "" (Some {| ttlInMinutes := Number.literal (1 # 100) |}),
                         seeded_world)))))
  = [Some (Number.Finite 1)]
  /\ Number.add (Number.floor (Number.div (Number.of_Z 500) 1000))
       (Number.mul (Number.literal (1 # 100)) (Number.Finite 60))
     = Number.Finite (5404319552844595 # 9007199254740992)
  /\ ~ (5404319552844595 # 9007199254740992 == 1)%Q
  /\ (inject_Z (Qfloor (inject_Z 500 / 1000)) + (1 # 100) * 60 == 3 # 5)%Q
  /\ ~ (inject_Z 1 == inject_Z (Qfloor (inject_Z 500 / 1000)) + (1 # 100) * 60)%Q.
Proof.
  split; [vm_compute; reflexivity|]. split; [vm_compute; reflexivity|].
  split; [intros H; vm_compute in H; discriminate H|].
  split; [reflexivity|]. intros H. vm_compute in H. discriminate H.
Qed.

(** The arithmetic is that of doubles: with the clock at 1700000000.5 s
    and a time to live of 1118481 / 2^27 minute the sum rounds up to a
    whole second, which the exact sum stays below. *)
Example scenario_rounded_sum :
  expiry 1700000000500 (Number.literal (1118481 # 134217728)) = Number.Finite 1700000001
  /\ Qfloor (inject_Z 1700000000500 / 1000 + (1118481 # 134217728) * 60) = 1700000000%Z.
Proof. vm_compute. split; reflexivity. Qed.

(** The test "Providing a ttl in constructor passes ttl in request". *)
Example scenario_ttl_30 :
  map command_ttl
    (calls (snd (snd (createSession table_send sample_getTime sample_randomUUID sample_table
                        test_data
                        (constructor "" (Some {| ttlInMinutes := Number.Finite 30 |}),
                         seeded_world)))))
  = [Some (Number.Finite (1700000000 + 30 * 60))].
Proof. vm_compute. reflexivity. Qed.

(** ** Cookies *)

(** C9 at the header [foo=bar]: there is no session cookie, and what
    [getSessionId] returns is [undefined], not [false]; [getCookie] then
    sends the text "undefined" as session id. *)
Theorem getSessionId_without_session_cookie :
  getSessionId "foo=bar" = JsUndefined
  /\ getSessionId "foo=bar" <> JsBool false
  /\ getCookie (constructor "foo=bar" None)
     = Normal "session=undefined; Path=/; HttpOnly; Secure".
Proof.
  vm_compute. repeat split; try reflexivity. discriminate.
Qed.

(** C8 at the token [0], the value of the header [session=0]: the handle
    takes it as its session id and hashes it, [getCookie] finds it equal to
    [false] and writes an empty value, which decodes to [false]. *)
Theorem cookie_round_trip_loses_zero_token :
  sessionId (constructor "session=0" None) = JsString "0"
  /\ sessionHash (constructor "session=0" None) = Some (hash "0")
  /\ getCookie (constructor "session=0" None) = Normal "session=; Path=/; HttpOnly; Secure"
  /\ getSessionId "session=; Path=/; HttpOnly; Secure" = JsBool false
  /\ getSessionId "session=; Path=/; HttpOnly; Secure" <> JsString "0".
Proof.
  vm_compute. repeat split; try reflexivity. discriminate.
Qed.

(** A value that does not decode is kept as it stands: nothing is thrown. *)
Example scenario_malformed_cookie :
  getSessionId "session=%E0%A4%A; =; ;;%" = JsString "%E0%A4%A"
  /\ getSessionId "session" = JsUndefined
  /\ getSessionId "session=; session=abc" = JsBool false.
Proof. vm_compute. repeat split; reflexivity. Qed.

(** A generated token does come back. *)
Example scenario_cookie_round_trip :
  getCookie created_handle
    = Normal ("session=" +:+ sample_randomUUID 0 +:+ "; Path=/; HttpOnly; Secure")
  /\ getSessionId ("session=" +:+ sample_randomUUID 0 +:+ "; Path=/; HttpOnly; Secure")
     = JsString (sample_randomUUID 0).
Proof. vm_compute. split; reflexivity. Qed.

(** ** More runs *)

(** A header whose session value is in no record of the table. *)
Definition unknown_handle : Session := constructor "session=nosuch" None.

Lemma unknown_handle_key : has_key unknown_handle (hash "nosuch").
Proof. split; [vm_compute; reflexivity | vm_compute; discriminate]. Qed.

(** A table whose record holds a [data] that is not a map. *)
Definition odd_table : gmap string (gmap string AttributeValue) :=
  {[ hash "12345" := {[ "data" := AttrS "text" ]} ]}.

Lemma init_caches_record_witness :
  let out := {| Item := db seeded_world !! hash "12345" |} in
  exists h' w',
    init table_send sample_table (fresh_handle, seeded_world) = (Normal (Some out), (h', w'))
    /\ calls w' = calls seeded_world ++ [GetItemCommand sample_table (hash "12345")]
    /\ getValue h' "bsn" "S" = Normal (Value (JsString "12345678")).
Proof.
  intros out.
  assert (Hd : output_data out = Some (AttrM sample_data ObjectPrototype))
    by (vm_compute; reflexivity).
  destruct (init_caches_record table_send sample_table fresh_handle seeded_world
              (hash "12345") out (db seeded_world) (AttrM sample_data ObjectPrototype)
              fresh_handle_key eq_refl Hd)
    as (h' & w' & Hi & _ & _ & _ & _ & Hc & _ & _ & _ & Hg).
  exists h', w'. split; [exact Hi|]. split; [exact Hc|].
  rewrite (Hg (plain sample_data) eq_refl). vm_compute. reflexivity.
Defined.

Lemma init_miss_keeps_handle_witness :
  exists w',
    init table_send sample_table (unknown_handle, seeded_world)
    = (Normal None, (unknown_handle, w'))
    /\ calls w' = calls seeded_world ++ [GetItemCommand sample_table (hash "nosuch")]
    /\ db w' = db seeded_world.
Proof.
  assert (Hd : output_data {| Item := db seeded_world !! hash "nosuch" |} = None)
    by (vm_compute; reflexivity).
  exact (init_miss_keeps_handle table_send sample_table unknown_handle seeded_world
           (hash "nosuch") (Normal {| Item := db seeded_world !! hash "nosuch" |})
           (db seeded_world) unknown_handle_key eq_refl Hd).
Defined.

Lemma no_session_id_reads_witness :
  let h := constructor "" None in
  init table_send sample_table (h, seeded_world) = (Normal None, (h, seeded_world))
  /\ isLoggedIn h = Normal (Value (JsBool false))
  /\ forall key type, getValue h key type = Normal (Value JsUndefined).
Proof.
  exact (no_session_id_reads table_send sample_table "" None seeded_world eq_refl).
Defined.

Lemma not_a_map_record_witness :
  let out := {| Item := odd_table !! hash "12345" |} in
  exists h' w',
    init table_send sample_table (fresh_handle, empty_world odd_table)
    = (Normal (Some out), (h', w'))
    /\ (exists e, isLoggedIn h' = Throw e)
    /\ (exists e, setValue table_send sample_getTime sample_table "bsn" "123"
                    (h', w') = (Throw e, (h', w'))).
Proof.
  intros out.
  assert (Hd : output_data out = Some (AttrS "text")) by (vm_compute; reflexivity).
  destruct (not_a_map_record table_send sample_getTime sample_table fresh_handle
              (empty_world odd_table) (hash "12345") out odd_table (AttrS "text")
              fresh_handle_key eq_refl Hd eq_refl)
    as (h' & w' & Hi & _ & Hl & Hs & _).
  exists h', w'. split; [exact Hi|]. split; [exact Hl|]. apply Hs.
Defined.

Lemma updateSession_rejected_keeps_handle_witness :
  exists w',
    updateSession rejecting_send sample_getTime sample_table new_state_data
      (loaded_handle, loaded_world)
    = (Throw (ClientError "ProvisionedThroughputExceededException"), (loaded_handle, w'))
    /\ db w' = db loaded_world.
Proof.
  destruct (updateSession_rejected_keeps_handle rejecting_send sample_getTime sample_table
              loaded_handle loaded_world new_state_data (hash "12345")
              (ClientError "ProvisionedThroughputExceededException") (db loaded_world)
              loaded_handle_key eq_refl)
    as (w' & Hu & _ & Hdb).
  exists w'. split; [exact Hu | exact Hdb].
Defined.

Lemma createSession_rejected_moves_key_witness :
  exists h' w',
    createSession rejecting_send sample_getTime sample_randomUUID sample_table test_data
      (fresh_handle, seeded_world)
    = (Throw (ClientError "ProvisionedThroughputExceededException"), (h', w'))
    /\ sessionId h' = sessionId fresh_handle
    /\ getCookie h' = getCookie fresh_handle
    /\ has_key h' (hash (sample_randomUUID (draws seeded_world))).
Proof.
  destruct (createSession_rejected_moves_key rejecting_send sample_getTime sample_randomUUID
              sample_table fresh_handle seeded_world test_data
              (ClientError "ProvisionedThroughputExceededException") (db seeded_world)
              eq_refl)
    as (h' & w' & Hc & Hid & Hck & _ & Hk & _).
  exists h', w'. repeat split; assumption || apply Hk.
Defined.

Lemma setValue_loads_first_witness :
  exists r h' w',
    setValue table_send sample_getTime sample_table "newkey" "newvalue"
      (fresh_handle, seeded_world) = (r, (h', w'))
    /\ calls w' = calls seeded_world ++
         [GetItemCommand sample_table (hash "12345");
          UpdateItemCommand sample_table (hash "12345")
            (expiry (sample_getTime (dates seeded_world)) (ttl fresh_handle))
            (set_property (plain sample_data) "newkey" "newvalue")]
    /\ getValue h' "newkey" "S" = Normal (Value (JsString "newvalue")).
Proof.
  assert (Hd : output_data {| Item := db seeded_world !! hash "12345" |}
               = Some (AttrM (own (plain sample_data)) (proto (plain sample_data))))
    by (vm_compute; reflexivity).
  destruct (setValue_loads_first table_send sample_getTime sample_table fresh_handle
              seeded_world "newkey" "newvalue" (hash "12345")
              {| Item := db seeded_world !! hash "12345" |} (db seeded_world)
              (plain sample_data) fresh_handle_key eq_refl eq_refl Hd)
    as (r & h' & w' & Hs & Hc & _ & Hg).
  exists r, h', w'. split; [exact Hs|]. split; [exact Hc | exact Hg].
Defined.

Lemma setValue_nothing_to_load_witness :
  exists w',
    setValue table_send sample_getTime sample_table "newkey" "newvalue"
      (unknown_handle, seeded_world)
    = (Throw (TypeError "Cannot read properties of undefined (reading 'M')"),
       (unknown_handle, w'))
    /\ calls w' = calls seeded_world ++ [GetItemCommand sample_table (hash "nosuch")]
    /\ db w' = db seeded_world.
Proof.
  assert (Hd : output_data {| Item := db seeded_world !! hash "nosuch" |} = None)
    by (vm_compute; reflexivity).
  exact (setValue_nothing_to_load table_send sample_getTime sample_table unknown_handle
           seeded_world "newkey" "newvalue" (hash "nosuch")
           {| Item := db seeded_world !! hash "nosuch" |} (db seeded_world)
           unknown_handle_key eq_refl eq_refl Hd).
Defined.

Lemma setValue_loggedin_logs_out_witness :
  isLoggedIn loaded_handle = Normal (Value (JsBool true))
  /\ exists r h' w',
       setValue table_send sample_getTime sample_table "loggedin" "true"
         (loaded_handle, loaded_world) = (r, (h', w'))
       /\ getValue h' "loggedin" "S" = Normal (Value (JsString "true"))
       /\ getValue h' "loggedin" "BOOL" = Normal (Value JsUndefined)
       /\ isLoggedIn h' = Normal (Value (JsBool false)).
Proof.
  split; [vm_compute; reflexivity|].
  exact (setValue_loggedin_logs_out table_send sample_getTime sample_table loaded_handle
           loaded_world "true" (plain sample_data) (hash "12345")
           loaded_handle_key loaded_handle_M).
Defined.

Lemma identity_kept_without_create_witness :
  let cs := [CallInit; CallSetValue "newkey" "newvalue"; CallUpdateSession new_state_data] in
  let st := run_calls table_send sample_getTime sample_randomUUID sample_table cs
              (fresh_handle, seeded_world) in
  same_identity fresh_handle (fst st)
  /\ getCookie (fst st) = getCookie fresh_handle.
Proof.
  exact (identity_kept_without_create table_send sample_getTime sample_randomUUID sample_table
           [CallInit; CallSetValue "newkey" "newvalue"; CallUpdateSession new_state_data]
           (fresh_handle, seeded_world) eq_refl).
Defined.

Lemma getCookie_getSessionId_witness :
  let T := sample_randomUUID 0 in
  getCookie created_handle = Normal (RoundTrip.header (JS.percent_encode T))
  /\ getSessionId (RoundTrip.header (JS.percent_encode T)) = JsString T.
Proof.
  assert (H1 : sessionId created_handle = JsString (sample_randomUUID 0))
    by (vm_compute; reflexivity).
  assert (H2 : JS.number_is_zero (sample_randomUUID 0) = false) by (vm_compute; reflexivity).
  assert (H3 : RoundTrip.well_formed (sample_randomUUID 0) = true) by (vm_compute; reflexivity).
  exact (RoundTrip.getCookie_getSessionId created_handle (sample_randomUUID 0) H1 H2 H3).
Defined.

Lemma getCookie_zero_token_witness :
  let h := constructor "session=0.0" None in
  sessionHash h = Some (hash "0.0")
  /\ getCookie h = Normal (RoundTrip.header "")
  /\ getSessionId (RoundTrip.header "") = JsBool false.
Proof.
  split; [vm_compute; reflexivity|].
  assert (H1 : sessionId (constructor "session=0.0" None) = JsString "0.0")
    by (vm_compute; reflexivity).
  assert (H2 : JS.number_is_zero "0.0" = true) by (vm_compute; reflexivity).
  exact (RoundTrip.getCookie_zero_token (constructor "session=0.0" None) "0.0" H1 H2).
Defined.

Lemma session_survives_request_witness :
  let tok := sample_randomUUID 0 in
  let put :=
    PutItemCommand sample_table (hash tok) test_data
      (expiry (sample_getTime (dates seeded_world)) (ttl no_cookie_handle)) in
  let db1 := snd (table_send put (db seeded_world)) in
  let out2 := {| Item := db1 !! hash tok |} in
  exists h1 w1 header h2 w3,
    createSession table_send sample_getTime sample_randomUUID sample_table test_data
      (no_cookie_handle, seeded_world) = (Normal tok, (h1, w1))
    /\ getCookie h1 = Normal header
    /\ init table_send sample_table (constructor header None, empty_world db1)
       = (Normal (Some out2), (h2, w3))
    /\ sessionId h2 = JsString tok
    /\ getValue h2 "test" "S" = Normal (Value (JsString "ok")).
Proof.
  intros tok put db1 out2.
  assert (H1 : JS.number_is_zero tok = false) by (vm_compute; reflexivity).
  assert (H2 : RoundTrip.well_formed tok = true) by (vm_compute; reflexivity).
  assert (H3 : output_data out2 = Some (AttrM (own test_data) ObjectPrototype))
    by (vm_compute; reflexivity).
  destruct (session_survives_request table_send sample_getTime sample_randomUUID sample_table
              no_cookie_handle seeded_world test_data {| Item := None |} db1 out2 db1
              (empty_world db1) None H1 H2 eq_refl eq_refl H3)
    as (h1 & w1 & header & h2 & w3 & Hc & Hk & Hi & _ & Hid & Hg).
  exists h1, w1, header, h2, w3. repeat split; try assumption.
  rewrite Hg. vm_compute. reflexivity.
Defined.

Lemma createSession_then_updateSession_witness :
  exists h1 w1 e w2,
    createSession table_send sample_getTime sample_randomUUID sample_table test_data
      (no_cookie_handle, seeded_world) = (Normal (sample_randomUUID 0), (h1, w1))
    /\ updateSession table_send sample_getTime sample_table new_state_data (h1, w1)
       = (Throw e, (h1, w2))
    /\ map is_write (calls w2) = [true; true].
Proof.
  destruct (createSession_then_updateSession table_send sample_getTime sample_randomUUID
              sample_table no_cookie_handle seeded_world test_data new_state_data
              {| Item := None |}
              (snd (table_send
                      (PutItemCommand sample_table (hash (sample_randomUUID 0)) test_data
                         (expiry (sample_getTime (dates seeded_world)) (ttl no_cookie_handle)))
                      (db seeded_world)))
              eq_refl eq_refl)
    as (h1 & w1 & e & w2 & Hc & Hu & Hcalls & _).
  exists h1, w1, e, w2. split; [exact Hc|]. split; [exact Hu|].
  rewrite Hcalls. reflexivity.
Defined.

(** A quoted session value that ends in a character outside the basic
    plane: what stays after unquoting ends in half of it, [getCookie]
    throws on that, and the key is the hash of the text with U+FFFD in its
    place. *)
Example scenario_unpaired_surrogate :
  let quote := String (ascii_of_byte 0x22) "" in
  let astral := String (ascii_of_byte 0xF0) (String (ascii_of_byte 0x9F)
                  (String (ascii_of_byte 0x98) (String (ascii_of_byte 0x80) ""))) in
  let h := constructor ("session=" +:+ quote +:+ "a" +:+ astral) None in
  (exists s, sessionId h = JsString s
             /\ map byte_of_ascii (String.list_ascii_of_string s) = [0x61; 0xED; 0xA0; 0xBD]%Z
             /\ bytes_of_string s = [0x61; 0xEF; 0xBF; 0xBD]%Z)
  /\ getCookie h = Throw (URIError "URI malformed").
Proof. vm_compute. split; [eexists; repeat split | reflexivity]. Qed.

(** ** Checks of the library models *)

Example sha256_constants :
  hd 0%Z SHA256.K = 0x428a2f98%Z /\ last SHA256.K = Some 0xc67178f2%Z
  /\ length SHA256.K = 64%nat
  /\ SHA256.ra SHA256.H0 = 0x6a09e667%Z /\ SHA256.rh SHA256.H0 = 0x5be0cd19%Z.
Proof. vm_compute. repeat split; reflexivity. Qed.

Example sha256_abc :
  SHA256.digest (bytes_of_string "abc") =
  [0xba; 0x78; 0x16; 0xbf; 0x8f; 0x01; 0xcf; 0xea; 0x41; 0x41; 0x40; 0xde;
   0x5d; 0xae; 0x22; 0x23; 0xb0; 0x03; 0x61; 0xa3; 0x96; 0x17; 0x7a; 0x9c;
   0xb4; 0x10; 0xff; 0x61; 0xf2; 0x00; 0x15; 0xad]%Z.
Proof. vm_compute. reflexivity. Qed.

Example hash_empty : hash "" = "47DEQpj8HBSa+/TImW+5JCeuQeRkm5NMpJWZG3hSuFU=".
Proof. vm_compute. reflexivity. Qed.

(** Doubles: 0.1 + 0.2, the first whole number a double skips, a product
    that underflows, one that overflows, and floors. *)
Example number_ex :
  Number.add (Number.literal (1 # 10)) (Number.literal (2 # 10))
  = Number.Finite (1351079888211149 # 4503599627370496)
  /\ Number.of_Z 9007199254740993 = Number.Finite 9007199254740992
  /\ Number.mul (Number.literal (1 # 10 ^ 200)) (Number.literal (1 # 10 ^ 200))
     = Number.Finite 0
  /\ Number.mul (Number.literal (inject_Z (10 ^ 200))) (Number.literal (inject_Z (10 ^ 200)))
     = Number.Infinity false
  /\ Number.floor (Number.Finite (- 1 # 2)) = Number.Finite (-1)
  /\ Number.floor (Number.mul Number.NaN (Number.Finite 60)) = Number.NaN.
Proof. vm_compute. repeat split; reflexivity. Qed.

Example trim_ex : JS.trim "  a b	" = "a b".
Proof. vm_compute. reflexivity. Qed.
Example enc_ex : JS.encodeURIComponent "a b;=é" = Normal "a%20b%3B%3D%C3%A9".
Proof. vm_compute. reflexivity. Qed.
Example dec_ex : JS.decodeURIComponent "a%20b%3B%3d%C3%A9" = Some "a b;=é".
Proof. vm_compute. reflexivity. Qed.
Example dec_bad1 : JS.decodeURIComponent "%C3" = None.
Proof. vm_compute. reflexivity. Qed.
Example dec_bad2 : JS.decodeURIComponent "%zz" = None.
Proof. vm_compute. reflexivity. Qed.
Example dec_bad3 : JS.decodeURIComponent "%C0%80" = None.
Proof. vm_compute. reflexivity. Qed.
Example zero_ex : map JS.number_is_zero ["0"; ""; " "; "0.0"; "-0"; "0x00"; "1e-400"; "0e5"; ".0"; "0."; "+.0e-3"]
  = repeat true 11.
Proof. vm_compute. reflexivity. Qed.
Example nonzero_ex : map JS.number_is_zero ["1"; "a"; "0x"; "."; "-"; "0 0"; "1e-300"; "0e"; "12345"; "Infinity"; "-0x0"; "00x0"; "123e4567-e89b-42d3-a456-426614174000"]
  = repeat false 13.
Proof. vm_compute. reflexivity. Qed.

Example parse_ex1 : Cookie.parse "session=12345;" !! "session" = Some "12345".
Proof. vm_compute. reflexivity. Qed.
Example parse_ex2 : Cookie.parse "a=1; session=x%20y; session=z; b" = {[ "a" := "1"; "session" := "x y" ]}.
Proof. vm_compute. reflexivity. Qed.
Example ser_ex1 : Cookie.serialize "session" "a b" {| Cookie.httpOnly := true; Cookie.secure := true; Cookie.path := Some "/" |}
  = Normal "session=a%20b; Path=/; HttpOnly; Secure".
Proof. vm_compute. reflexivity. Qed.
